(** * Kalman-filter track reconstruction: motion model, simulator, estimator

    Shallow embedding of [src/backend/kalman_filter_track.cpp].

    Numbers.  Every [double] of the source is modelled by a real number of
    the Standard Library ([R]), with exact arithmetic: rounding, infinities
    and NaN are outside the model.  [std::tan], [std::sin] and [std::cos] are
    the library's [tan], [sin] and [cos].  Where a statement is about
    rounding itself, the covariance arithmetic of one pass of the filter is
    also given on binary64 floats (module [Binary64]).

    Matrices.  ROOT's fixed-size [SVector] / [SMatrix] values are records of
    their entries, one record per shape used by the program, with the
    products, sums and transposes written entry by entry.  A
    default-constructed [SMatrix] or [SVector] holds zeros.

    Noise.  [TRandom3] is an external collaborator: it is a parameter of the
    development (a type of generator states and a sampling function that
    returns the sample together with the next generator state). *)

From Stdlib Require Import Reals Lra Lia List Sorted.
From Stdlib Require String Ascii PrimFloat.
Import ListNotations.

Open Scope R_scope.

(** The source's [double]. *)
Abbreviation double := R (only parsing).

(* ================================================================== *)
(** * Fixed-size linear algebra (the shapes the program uses)         *)
(* ================================================================== *)

(** [SVector<double, 2>]: the state [y, phi]. *)
Record SVector2 : Type := mkVec2 { v0 : double; v1 : double }.

(** [SMatrix<double, 2, 2>]. *)
Record SMatrix2x2 : Type :=
  mkMat22 { m00 : double; m01 : double; m10 : double; m11 : double }.

(** [SMatrix<double, 1, 2>] (the measurement matrix). *)
Record SMatrix1x2 : Type := mkMat12 { h00 : double; h01 : double }.

(** [SMatrix<double, 2, 1>] (the Kalman gain). *)
Record SMatrix2x1 : Type := mkMat21 { k00 : double; k10 : double }.

(** [SMatrix<double, 1, 1>] and [SVector<double, 1>]. *)
Record SMatrix1x1 : Type := mkMat11 { s00 : double }.
Record SVector1 : Type := mkVec1 { r0 : double }.

Definition mul22 (A B : SMatrix2x2) : SMatrix2x2 :=
  mkMat22 (m00 A * m00 B + m01 A * m10 B) (m00 A * m01 B + m01 A * m11 B)
          (m10 A * m00 B + m11 A * m10 B) (m10 A * m01 B + m11 A * m11 B).

Definition add22 (A B : SMatrix2x2) : SMatrix2x2 :=
  mkMat22 (m00 A + m00 B) (m01 A + m01 B) (m10 A + m10 B) (m11 A + m11 B).

Definition sub22 (A B : SMatrix2x2) : SMatrix2x2 :=
  mkMat22 (m00 A - m00 B) (m01 A - m01 B) (m10 A - m10 B) (m11 A - m11 B).

Definition Transpose22 (A : SMatrix2x2) : SMatrix2x2 :=
  mkMat22 (m00 A) (m10 A) (m01 A) (m11 A).

Definition Transpose12 (A : SMatrix1x2) : SMatrix2x1 :=
  mkMat21 (h00 A) (h01 A).

Definition SMatrixIdentity : SMatrix2x2 := mkMat22 1 0 0 1.

(** 1x2 times 2x2. *)
Definition mul12_22 (A : SMatrix1x2) (B : SMatrix2x2) : SMatrix1x2 :=
  mkMat12 (h00 A * m00 B + h01 A * m10 B) (h00 A * m01 B + h01 A * m11 B).

(** 1x2 times 2x1. *)
Definition mul12_21 (A : SMatrix1x2) (B : SMatrix2x1) : SMatrix1x1 :=
  mkMat11 (h00 A * k00 B + h01 A * k10 B).

(** 2x2 times 2x1. *)
Definition mul22_21 (A : SMatrix2x2) (B : SMatrix2x1) : SMatrix2x1 :=
  mkMat21 (m00 A * k00 B + m01 A * k10 B) (m10 A * k00 B + m11 A * k10 B).

(** 2x1 times 1x1. *)
Definition mul21_11 (A : SMatrix2x1) (B : SMatrix1x1) : SMatrix2x1 :=
  mkMat21 (k00 A * s00 B) (k10 A * s00 B).

(** 2x1 times 1x2. *)
Definition mul21_12 (A : SMatrix2x1) (B : SMatrix1x2) : SMatrix2x2 :=
  mkMat22 (k00 A * h00 B) (k00 A * h01 B) (k10 A * h00 B) (k10 A * h01 B).

(** 1x2 matrix times a 2-vector. *)
Definition mul12_vec (A : SMatrix1x2) (v : SVector2) : SVector1 :=
  mkVec1 (h00 A * v0 v + h01 A * v1 v).

(** 2x1 matrix times a 1-vector. *)
Definition mul21_vec (A : SMatrix2x1) (v : SVector1) : SVector2 :=
  mkVec2 (k00 A * r0 v) (k10 A * r0 v).

Definition add11 (A B : SMatrix1x1) : SMatrix1x1 := mkMat11 (s00 A + s00 B).
Definition sub_vec1 (a b : SVector1) : SVector1 := mkVec1 (r0 a - r0 b).
Definition add_vec2 (a b : SVector2) : SVector2 :=
  mkVec2 (v0 a + v0 b) (v1 a + v1 b).

(** [S.Invert(S_inv)] on a 1x1 matrix: the status (false when the entry is
    zero) and the reciprocal of the entry.  The program only inverts entries
    that are at least 4; what ROOT leaves in [S_inv] for a zero entry is not
    modelled, and nothing below relies on it. *)
Definition Invert (S : SMatrix1x1) : bool * SMatrix1x1 :=
  (if Req_dec_T (s00 S) 0 then false else true, mkMat11 (/ s00 S)).

(* ================================================================== *)
(** * Detector and physics parameters (source lines 33-39)            *)
(* ================================================================== *)

Definition n_layers : nat := 10.
Definition layer_x_positions : list double :=
  [10; 20; 30; 40; 50; 60; 70; 80; 90; 100].
Definition measurement_error : double := 2.0.
Definition process_noise_q : double := 0.01.
Definition pt : double := 1.0.
Definition B : double := 1.0.

(** Radius of curvature.  From here on the bare name [R] is this constant;
    the type of reals is written [double]. *)
Definition R : double := (pt * 100) / (0.3 * B).

(* ================================================================== *)
(** * Motion model (source lines 44-67)                               *)
(* ================================================================== *)

Definition propagate (state_k : SVector2) (x_k x_k1 : double) : SVector2 :=
  let y := v0 state_k in
  let phi := v1 state_k in
  let delta_x := x_k1 - x_k in
  mkVec2 (y + delta_x * tan phi)
         (phi - (delta_x / R) / cos phi).

Definition jacobian_F (state_k : SVector2) (x_k x_k1 : double) : SMatrix2x2 :=
  let phi := v1 state_k in
  let delta_x := x_k1 - x_k in
  mkMat22 1.0
          (delta_x * (1.0 + tan phi * tan phi))
          0.0
          (1.0 - (delta_x / R) * (sin phi / (cos phi * cos phi))).

(* ================================================================== *)
(** * Completion of a call                                            *)
(* ================================================================== *)

(** The error taxonomy named by the specification. *)
Inductive Error : Type :=
  | DomainError
  | SingularMatrixError
  | ConfigurationError.

(** How a call of a C++ function ends: it returns a value or it leaves by
    an exception. *)
Inductive outcome (A : Type) : Type :=
  | Returns (a : A)
  | Raises (e : Error).
Arguments Returns {A} a.
Arguments Raises {A} e.

(** Neither function of the motion model contains a [throw], an assertion
    or a test on [phi]: every call returns what the body computes. *)
Definition call_propagate (state_k : SVector2) (x_k x_k1 : double)
  : outcome SVector2 :=
  Returns (propagate state_k x_k x_k1).

Definition call_jacobian_F (state_k : SVector2) (x_k x_k1 : double)
  : outcome SMatrix2x2 :=
  Returns (jacobian_F state_k x_k x_k1).

(* ================================================================== *)
(** * The filter's constant matrices (source lines 112-128)           *)
(* ================================================================== *)

Definition true_state_initial : SVector2 := mkVec2 5.0 (-0.2).

(** [P_est] as first assigned: the two diagonal entries are written, the
    others keep the zero of the default constructor. *)
Definition P_est_initial : SMatrix2x2 := mkMat22 100.0 0 0 1.0.

Definition H : SMatrix1x2 := mkMat12 1.0 0.0.

Definition R_matrix : SMatrix1x1 :=
  mkMat11 (measurement_error * measurement_error).

Definition Q : SMatrix2x2 := mkMat22 0.0 0 0 process_noise_q.

(** Prediction step (source lines 134-136): the predicted state and the
    predicted covariance [F * P_est * Transpose(F) + Q]. *)
Definition predict_state (x_est : SVector2) (last_kf_x x_i : double)
  : SVector2 :=
  propagate x_est last_kf_x x_i.

Definition predict_cov (x_est : SVector2) (P_est : SMatrix2x2)
    (last_kf_x x_i : double) : SMatrix2x2 :=
  let F := jacobian_F x_est last_kf_x x_i in
  add22 (mul22 (mul22 F P_est) (Transpose22 F)) Q.

(** Innovation covariance (source line 141). *)
Definition innovation_S (P_pred : SMatrix2x2) : SMatrix1x1 :=
  add11 (mul12_21 (mul12_22 H P_pred) (Transpose12 H)) R_matrix.

(** Kalman gain (source lines 142-145).  The status of the inversion is
    dropped: only the second component of [Invert] is used. *)
Definition kalman_gain (P_pred : SMatrix2x2) : SMatrix2x1 :=
  let S := innovation_S P_pred in
  let S_inv := snd (Invert S) in
  mul21_11 (mul22_21 P_pred (Transpose12 H)) S_inv.

(** Update step (source lines 139-148). *)
Definition update_state (x_pred : SVector2) (P_pred : SMatrix2x2)
    (measured : double) : SVector2 :=
  let y_residual := sub_vec1 (mkVec1 measured) (mul12_vec H x_pred) in
  let K := kalman_gain P_pred in
  add_vec2 x_pred (mul21_vec K y_residual).

Definition update_cov (P_pred : SMatrix2x2) : SMatrix2x2 :=
  let K := kalman_gain P_pred in
  mul22 (sub22 SMatrixIdentity (mul21_12 K H)) P_pred.

(** One pass of the filter loop on the pair (state, covariance). *)
Definition kf_layer (x_est : SVector2) (P_est : SMatrix2x2)
    (last_kf_x x_i measured : double) : SVector2 * SMatrix2x2 :=
  let x_pred := predict_state x_est last_kf_x x_i in
  let P_pred := predict_cov x_est P_est last_kf_x x_i in
  (update_state x_pred P_pred measured, update_cov P_pred).

(** Symmetry and positive semi-definiteness of a 2x2 matrix. *)
Definition symmetric (A : SMatrix2x2) : Prop := m01 A = m10 A.

Definition quad_form (A : SMatrix2x2) (a b : double) : double :=
  a * (m00 A * a + m01 A * b) + b * (m10 A * a + m11 A * b).

Definition positive_semidefinite (A : SMatrix2x2) : Prop :=
  forall a b : double, 0 <= quad_form A a b.

(* ================================================================== *)
(** * The program (source lines 70-188)                               *)
(* ================================================================== *)

(** The four sequences written to the output. *)
Record Output : Type := mkOutput {
  detector_layers : list double;
  true_track : list (double * double);
  hits : list (double * double);
  kf_track : list (double * double)
}.

Section Program.

(** The noise source: the state of a [TRandom3] generator and its
    [Gaus(mean, sigma)] method, which returns a sample and advances the
    generator. *)
Variable TRandom3 : Type.
Variable Gaus : TRandom3 -> double -> double -> double * TRandom3.

(** The local variables of [main]. *)
Record Locals : Type := mkLocals {
  rng : TRandom3;
  true_x : list double;
  true_y : list double;
  current_true_state : SVector2;
  last_x : double;
  measured_y : list double;
  kf_x : list double;
  kf_y : list double;
  x_est : SVector2;
  P_est : SMatrix2x2;
  last_kf_x : double
}.

(** Locals right after [TRandom3 rng(0)] and the declarations of lines
    74-80; the variables declared further down hold their default values
    until their declaration is reached. *)
Definition locals_initial (rng0 : TRandom3) : Locals :=
  mkLocals rng0 [] [] true_state_initial 0.0 []
           [] [] (mkVec2 0 0) (mkMat22 0 0 0 0) 0.

(** ** 1. Ground truth (source lines 82-90) *)

(** The inner [for (x_step = last_x; x_step < current_x; x_step += 0.5)]:
    [fuel] bounds the number of tests of the loop condition.  The exact
    counter agrees with the [double] of the source as long as the abscissae
    are multiples of 0.5 of magnitude at most 2^52, which covers every layer
    position of the program. *)
Fixpoint dense_steps (fuel : nat) (x_step current_x : double) (l : Locals)
  : option Locals :=
  match fuel with
  | O => None
  | S fuel' =>
      if Rlt_dec x_step current_x then
        let st := propagate (current_true_state l) x_step (x_step + 0.5) in
        dense_steps fuel' (x_step + 0.5) current_x
          (mkLocals (rng l)
                    (true_x l ++ [x_step + 0.5])
                    (true_y l ++ [v0 st])
                    st (last_x l) (measured_y l)
                    (kf_x l) (kf_y l) (x_est l) (P_est l) (last_kf_x l))
      else Some l
  end.

Definition set_last_x (l : Locals) (x : double) : Locals :=
  mkLocals (rng l) (true_x l) (true_y l) (current_true_state l) x
           (measured_y l) (kf_x l) (kf_y l) (x_est l) (P_est l)
           (last_kf_x l).

(** Body of the outer loop for index [i]. *)
Definition truth_layer (fuel : nat) (ol : option Locals) (i : nat)
  : option Locals :=
  match ol with
  | None => None
  | Some l =>
      let current_x := nth i layer_x_positions 0 in
      match dense_steps fuel (last_x l) current_x l with
      | None => None
      | Some l' => Some (set_last_x l' current_x)
      end
  end.

Definition ground_truth (fuel : nat) (l : Locals) : option Locals :=
  fold_left (truth_layer fuel) (seq 0 n_layers) (Some l).

(** ** 2. Measurements (source lines 93-102) *)

(** Lines 93-95: [measured_y] is declared, the true state and [last_x]
    are reset. *)
Definition measure_reset (l : Locals) : Locals :=
  mkLocals (rng l) (true_x l) (true_y l) true_state_initial 0
           [] (kf_x l) (kf_y l) (x_est l) (P_est l) (last_kf_x l).

Definition measure_layer (l : Locals) (i : nat) : Locals :=
  let current_x := nth i layer_x_positions 0 in
  let st := propagate (current_true_state l) (last_x l) current_x in
  let (noise, rng') := Gaus (rng l) 0 measurement_error in
  let y_smeared := v0 st + noise in
  mkLocals rng' (true_x l) (true_y l) st current_x
           (measured_y l ++ [y_smeared])
           (kf_x l) (kf_y l) (x_est l) (P_est l) (last_kf_x l).

Definition simulate_measurements (l : Locals) : Locals :=
  fold_left measure_layer (seq 0 n_layers) (measure_reset l).

(** ** 3. Kalman filter (source lines 105-153) *)

(** Lines 105-131: the smeared initial guess, the initial covariance. *)
Definition kf_init (l : Locals) : Locals :=
  let (n0, rng1) := Gaus (rng l) 0 5.0 in
  let (n1, rng2) := Gaus rng1 0 0.1 in
  mkLocals rng2 (true_x l) (true_y l) (current_true_state l) (last_x l)
           (measured_y l) [] []
           (mkVec2 (v0 true_state_initial + n0)
                   (v1 true_state_initial + n1))
           P_est_initial 0.0.

(** Lines 132-153, body for index [i]; [measured_y[i]] past the end of the
    vector is read as 0. *)
Definition kf_iteration (l : Locals) (i : nat) : Locals :=
  let x_i := nth i layer_x_positions 0 in
  let (x_new, P_new) :=
    kf_layer (x_est l) (P_est l) (last_kf_x l) x_i
             (nth i (measured_y l) 0) in
  mkLocals (rng l) (true_x l) (true_y l) (current_true_state l) (last_x l)
           (measured_y l)
           (kf_x l ++ [x_i]) (kf_y l ++ [v0 x_new])
           x_new P_new x_i.

Definition kalman_filter (l : Locals) : Locals :=
  fold_left kf_iteration (seq 0 n_layers) (kf_init l).

(** ** 4. Output (source lines 156-185) *)

Definition emit (l : Locals) : Output :=
  mkOutput
    (map (fun i => nth i layer_x_positions 0) (seq 0 n_layers))
    (map (fun i => (nth i (true_x l) 0, nth i (true_y l) 0))
         (seq 0 (length (true_x l))))
    (map (fun i => (nth i layer_x_positions 0, nth i (measured_y l) 0))
         (seq 0 n_layers))
    (map (fun i => (nth i (kf_x l) 0, nth i (kf_y l) 0))
         (seq 0 (length (kf_x l)))).

(** The whole of [main], from the generator state [rng0] left by
    [TRandom3 rng(0)]: the locals when the output starts, and the output. *)
Definition run (fuel : nat) (rng0 : TRandom3) : option Locals :=
  match ground_truth fuel (locals_initial rng0) with
  | None => None
  | Some l1 => Some (kalman_filter (simulate_measurements l1))
  end.

Definition main (fuel : nat) (rng0 : TRandom3) : option Output :=
  option_map emit (run fuel rng0).

(** ** Reference sequences used by the statements *)

(** Position of layer [i], and the position the step into layer [i]
    starts from. *)
Definition layer_pos (i : nat) : double := nth i layer_x_positions 0.

Definition prev_pos (i : nat) : double :=
  match i with
  | O => 0
  | S j => layer_pos j
  end.

(** True state after [i] layer-to-layer steps from the initial state. *)
Fixpoint true_state_after (i : nat) : SVector2 :=
  match i with
  | O => true_state_initial
  | S j => propagate (true_state_after j) (prev_pos j) (layer_pos j)
  end.

(** Generator state after [i] calls [Gaus(0, measurement_error)]. *)
Fixpoint rng_after (rng0 : TRandom3) (i : nat) : TRandom3 :=
  match i with
  | O => rng0
  | S j => snd (Gaus (rng_after rng0 j) 0 measurement_error)
  end.

(** The samples the program draws, in the order of the calls: one per
    layer, then the two of the initial guess. *)
Definition noise_draws (rng0 : TRandom3) : list double :=
  map (fun i => fst (Gaus (rng_after rng0 i) 0 measurement_error))
      (seq 0 n_layers)
  ++ [fst (Gaus (rng_after rng0 n_layers) 0 5.0);
      fst (Gaus (snd (Gaus (rng_after rng0 n_layers) 0 5.0)) 0 0.1)].

(** Filter state after [i] passes of the loop of lines 132-153. *)
Definition kf_after (l : Locals) (i : nat) : Locals :=
  fold_left kf_iteration (seq 0 i) (kf_init l).

(** Locals after [i] passes of the loop of lines 96-102. *)
Definition measure_after (l : Locals) (i : nat) : Locals :=
  fold_left measure_layer (seq 0 i) (measure_reset l).

(** Locals after [i] passes of the outer loop of lines 82-90. *)
Definition truth_after (fuel : nat) (l : Locals) (i : nat)
  : option Locals :=
  fold_left (truth_layer fuel) (seq 0 i) (Some l).

End Program.

Arguments rng {TRandom3} _.
Arguments true_x {TRandom3} _.
Arguments true_y {TRandom3} _.
Arguments current_true_state {TRandom3} _.
Arguments last_x {TRandom3} _.
Arguments measured_y {TRandom3} _.
Arguments kf_x {TRandom3} _.
Arguments kf_y {TRandom3} _.
Arguments x_est {TRandom3} _.
Arguments P_est {TRandom3} _.
Arguments last_kf_x {TRandom3} _.
Arguments mkLocals {TRandom3}.
Arguments locals_initial {TRandom3} rng0.
Arguments dense_steps {TRandom3} fuel x_step current_x l.
Arguments set_last_x {TRandom3} l x.
Arguments truth_layer {TRandom3} fuel ol i.
Arguments ground_truth {TRandom3} fuel l.
Arguments measure_reset {TRandom3} l.
Arguments measure_layer {TRandom3} Gaus l i.
Arguments simulate_measurements {TRandom3} Gaus l.
Arguments kf_init {TRandom3} Gaus l.
Arguments kf_iteration {TRandom3} l i.
Arguments kalman_filter {TRandom3} Gaus l.
Arguments emit {TRandom3} l.
Arguments run {TRandom3} Gaus fuel rng0.
Arguments main {TRandom3} Gaus fuel rng0.
Arguments measure_after {TRandom3} Gaus l i.
Arguments truth_after {TRandom3} fuel l i.
Arguments rng_after {TRandom3} Gaus rng0 i.
Arguments noise_draws {TRandom3} Gaus rng0.
Arguments kf_after {TRandom3} Gaus l i.

(** Two sets of locals, possibly over different generators, that agree on
    everything the filter loop reads or writes. *)
Definition same_filter_data {G1 G2 : Type} (a : Locals G1) (b : Locals G2)
  : Prop :=
  measured_y a = measured_y b
  /\ kf_x a = kf_x b /\ kf_y a = kf_y b
  /\ x_est a = x_est b /\ P_est a = P_est b /\ last_kf_x a = last_kf_x b.

(** Two sets of locals that agree on everything the ground-truth loop reads
    or writes. *)
Definition same_truth_data {G1 G2 : Type} (a : Locals G1) (b : Locals G2)
  : Prop :=
  true_x a = true_x b /\ true_y a = true_y b
  /\ current_true_state a = current_true_state b /\ last_x a = last_x b.

(** The degenerate noise source: a generator without state whose every
    sample is the requested mean. *)
Definition Gaus_mean (g : unit) (mean sigma : double) : double * unit :=
  (mean, g).

(** A generator whose state is a counter: the sample is the mean plus
    [sigma] times the number of calls made so far. *)
Definition Gaus_counter (g : nat) (mean sigma : double) : double * nat :=
  (mean + sigma * INR g, S g).

(** A generator that also records the arguments of every call made to it. *)
Definition Gaus_logged {G : Type} (Gaus : G -> double -> double -> double * G)
    (s : G * list (double * double)) (mean sigma : double)
  : double * (G * list (double * double)) :=
  let (x, g') := Gaus (fst s) mean sigma in
  (x, (g', snd s ++ [(mean, sigma)])).

(* ================================================================== *)
(** * The covariance arithmetic in IEEE binary64 (source lines 134-148) *)
(* ================================================================== *)

(** The covariance part of one pass of the filter loop, written on
    primitive binary64 floats: every operation rounds as the [double]
    operation of the program does.  [std::tan], [std::sin] and [std::cos]
    belong to the C library and enter [jacobian_F_at] by their values at the
    angle of the state. *)
Module Binary64.

Import PrimFloat.
#[local] Set Warnings "-inexact-float".
Local Open Scope float_scope.

Record SMatrix2x2 : Type :=
  mkMat22 { m00 : float; m01 : float; m10 : float; m11 : float }.
Record SMatrix1x2 : Type := mkMat12 { h00 : float; h01 : float }.
Record SMatrix2x1 : Type := mkMat21 { k00 : float; k10 : float }.
Record SMatrix1x1 : Type := mkMat11 { s00 : float }.

Definition mul22 (A B : SMatrix2x2) : SMatrix2x2 :=
  mkMat22 (m00 A * m00 B + m01 A * m10 B) (m00 A * m01 B + m01 A * m11 B)
          (m10 A * m00 B + m11 A * m10 B) (m10 A * m01 B + m11 A * m11 B).

Definition add22 (A B : SMatrix2x2) : SMatrix2x2 :=
  mkMat22 (m00 A + m00 B) (m01 A + m01 B) (m10 A + m10 B) (m11 A + m11 B).

Definition sub22 (A B : SMatrix2x2) : SMatrix2x2 :=
  mkMat22 (m00 A - m00 B) (m01 A - m01 B) (m10 A - m10 B) (m11 A - m11 B).

Definition Transpose22 (A : SMatrix2x2) : SMatrix2x2 :=
  mkMat22 (m00 A) (m10 A) (m01 A) (m11 A).

Definition Transpose12 (A : SMatrix1x2) : SMatrix2x1 :=
  mkMat21 (h00 A) (h01 A).

Definition SMatrixIdentity : SMatrix2x2 := mkMat22 1 0 0 1.

Definition mul12_22 (A : SMatrix1x2) (B : SMatrix2x2) : SMatrix1x2 :=
  mkMat12 (h00 A * m00 B + h01 A * m10 B) (h00 A * m01 B + h01 A * m11 B).

Definition mul12_21 (A : SMatrix1x2) (B : SMatrix2x1) : SMatrix1x1 :=
  mkMat11 (h00 A * k00 B + h01 A * k10 B).

Definition mul22_21 (A : SMatrix2x2) (B : SMatrix2x1) : SMatrix2x1 :=
  mkMat21 (m00 A * k00 B + m01 A * k10 B) (m10 A * k00 B + m11 A * k10 B).

Definition mul21_11 (A : SMatrix2x1) (B : SMatrix1x1) : SMatrix2x1 :=
  mkMat21 (k00 A * s00 B) (k10 A * s00 B).

Definition mul21_12 (A : SMatrix2x1) (B : SMatrix1x2) : SMatrix2x2 :=
  mkMat22 (k00 A * h00 B) (k00 A * h01 B) (k10 A * h00 B) (k10 A * h01 B).

Definition add11 (A B : SMatrix1x1) : SMatrix1x1 := mkMat11 (s00 A + s00 B).

(** The reciprocal taken by the inversion of a 1x1 matrix. *)
Definition Invert (S : SMatrix1x1) : bool * SMatrix1x1 :=
  (if s00 S =? 0 then false else true, mkMat11 (1 / s00 S)).

Definition measurement_error : float := 2.0.
Definition process_noise_q : float := 0.01.
Definition pt : float := 1.0.
Definition B : float := 1.0.
Definition R : float := (pt * 100) / (0.3 * B).

Definition P_est_initial : SMatrix2x2 := mkMat22 100.0 0 0 1.0.
Definition H : SMatrix1x2 := mkMat12 1.0 0.0.
Definition R_matrix : SMatrix1x1 :=
  mkMat11 (measurement_error * measurement_error).
Definition Q : SMatrix2x2 := mkMat22 0.0 0 0 process_noise_q.


(** Line 136. *)
Definition predict_cov (F P_est : SMatrix2x2) : SMatrix2x2 :=
  add22 (mul22 (mul22 F P_est) (Transpose22 F)) Q.

(** Line 141. *)
Definition innovation_S (P_pred : SMatrix2x2) : SMatrix1x1 :=
  add11 (mul12_21 (mul12_22 H P_pred) (Transpose12 H)) R_matrix.

(** Lines 142-145. *)
Definition kalman_gain (P_pred : SMatrix2x2) : SMatrix2x1 :=
  let S := innovation_S P_pred in
  let S_inv := snd (Invert S) in
  mul21_11 (mul22_21 P_pred (Transpose12 H)) S_inv.

(** Line 148. *)
Definition update_cov (P_pred : SMatrix2x2) : SMatrix2x2 :=
  let K := kalman_gain P_pred in
  mul22 (sub22 SMatrixIdentity (mul21_12 K H)) P_pred.

End Binary64.

(** State of the dense ground truth after [k] half-unit steps from the
    initial state. *)
Definition half_step (s : SVector2) : SVector2 := propagate s 0 0.5.

Definition dense_state (k : nat) : SVector2 :=
  Nat.iter k half_step true_state_initial.

(* ================================================================== *)
(** * The text written to the standard output (source lines 156-185)  *)
(* ================================================================== *)

Section Printing.

Import String.
Local Open Scope string_scope.

(** [std::cout << d] for a [double] [d]: the formatting of the stream is
    not part of the program. *)
Variable show : double -> string.

(** The double-quote character and the end of line written by
    [std::endl]. *)
Definition dquote : string := String (Ascii.ascii_of_nat 34) EmptyString.
Definition endl : string := String (Ascii.ascii_of_nat 10) EmptyString.

(** A quoted key followed by a colon and a space. *)
Definition print_key (k : string) : string := dquote ++ k ++ dquote ++ ": ".

(** One record [{"x": ..., "y": ...}]. *)
Definition print_point (x y : double) : string :=
  "{" ++ print_key "x" ++ show x ++ ", " ++ print_key "y" ++ show y ++ "}".

(** A loop [for (i = 0; i < n; ++i) cout << item(i) << (i == n - 1 ? "" : ",")]
    appending to what has been written so far. *)
Definition print_loop (n : nat) (item : nat -> string) (out : string)
  : string :=
  fold_left
    (fun o i => o ++ item i ++ (if Nat.eqb i (n - 1)%nat then "" else ","))
    (seq 0 n) out.

(** Lines 156-185, as the text accumulated on the stream. *)
Definition print_json {TRandom3 : Type} (l : Locals TRandom3) : string :=
  let out := "{" in
  let out := out ++ print_key "detector_layers" ++ "[" in
  let out :=
    print_loop n_layers (fun i => show (nth i layer_x_positions 0)) out in
  let out := out ++ "]," in
  let out := out ++ print_key "true_track" ++ "[" in
  let out :=
    print_loop (List.length (true_x l))
      (fun i => print_point (nth i (true_x l) 0) (nth i (true_y l) 0)) out in
  let out := out ++ "]," in
  let out := out ++ print_key "hits" ++ "[" in
  let out :=
    print_loop n_layers
      (fun i => print_point (nth i layer_x_positions 0)
                            (nth i (measured_y l) 0)) out in
  let out := out ++ "]," in
  let out := out ++ print_key "kf_track" ++ "[" in
  let out :=
    print_loop (List.length (kf_x l))
      (fun i => print_point (nth i (kf_x l) 0) (nth i (kf_y l) 0)) out in
  let out := out ++ "]" in
  out ++ "}" ++ endl.

(** The JSON text of an output record: four members, each an array of the
    items of one sequence joined by commas. *)
Definition json_array (items : list string) : string :=
  "[" ++ concat "," items ++ "]".

Definition json_of_output (o : Output) : string :=
  "{" ++ print_key "detector_layers"
      ++ json_array (map show (detector_layers o)) ++ ","
      ++ print_key "true_track"
      ++ json_array (map (fun p => print_point (fst p) (snd p))
                         (true_track o)) ++ ","
      ++ print_key "hits"
      ++ json_array (map (fun p => print_point (fst p) (snd p)) (hits o))
      ++ ","
      ++ print_key "kf_track"
      ++ json_array (map (fun p => print_point (fst p) (snd p))
                         (kf_track o))
      ++ "}" ++ endl.

End Printing.

(* ================================================================== *)
(** * Facts about the constants and the motion model                  *)
(* ================================================================== *)

(** The literals [1.0] and [0.0] of the source. *)
Lemma lit_one : 1.0 = 1.
Proof. lra. Qed.

Lemma lit_zero : 0.0 = 0.
Proof. lra. Qed.

Lemma R_value : R = 1000 / 3.
Proof. unfold R, pt, B. lra. Qed.

Lemma R_pos : 0 < R.
Proof. rewrite R_value. lra. Qed.

Lemma cos_pos_in_domain (phi : double) : Rabs phi < PI / 2 -> 0 < cos phi.
Proof.
  intros H. apply Rabs_def2 in H. destruct H as [H1 H2].
  apply cos_gt_0; lra.
Qed.

Lemma cos_neq_0_in_domain (phi : double) : Rabs phi < PI / 2 -> cos phi <> 0.
Proof. intros H. apply cos_pos_in_domain in H. lra. Qed.

(** C1: for a state (y, phi) with |phi| < pi/2 and any x_from, x_to,
    [propagate] returns (y + dx * tan phi, phi - (dx / R) / cos phi) with
    dx = x_to - x_from, where R = pt * 100 / (0.3 * B) = 1000 / 3; the
    cosine that is divided by is not zero there. *)
Theorem propagate_formula (y phi x_from x_to : double) :
  Rabs phi < PI / 2 ->
  let dx := x_to - x_from in
  propagate (mkVec2 y phi) x_from x_to
    = mkVec2 (y + dx * tan phi) (phi - (dx / R) / cos phi)
  /\ cos phi <> 0
  /\ R = pt * 100 / (0.3 * B)
  /\ R = 1000 / 3.
Proof.
  intros Hphi dx. repeat split.
  - now apply cos_neq_0_in_domain.
  - exact R_value.
Qed.

Lemma propagate_formula_witness :
  Rabs 0 < PI / 2 /\
  propagate (mkVec2 5 0) 0 10
    = mkVec2 (5 + (10 - 0) * tan 0) (0 - ((10 - 0) / R) / cos 0).
Proof.
  assert (H0 : Rabs 0 < PI / 2).
  { rewrite Rabs_R0. pose proof PI_RGT_0. lra. }
  split; [exact H0 |].
  exact (proj1 (propagate_formula 5 0 0 10 H0)).
Defined.

(** Derivatives of the two trigonometric terms of [propagate]. *)
Lemma derivable_pt_lim_tan_domain (phi : double) :
  Rabs phi < PI / 2 ->
  derivable_pt_lim tan phi (1 + tan phi * tan phi).
Proof.
  intros Hphi.
  assert (Hd : - PI / 2 < phi < PI / 2).
  { apply Rabs_def2 in Hphi. lra. }
  pose proof (derive_pt_tan phi Hd) as E.
  pose proof (proj2_sig (derivable_pt_tan phi Hd)) as L. simpl in L.
  unfold derive_pt in E.
  replace (1 + tan phi * tan phi) with
    (proj1_sig (derivable_pt_tan phi Hd)); [exact L |].
  rewrite E. simpl. ring.
Qed.

Lemma derivable_pt_lim_inv_cos (phi : double) :
  cos phi <> 0 ->
  derivable_pt_lim (fun t => / cos t) phi (sin phi / (cos phi * cos phi)).
Proof.
  intros Hc.
  pose proof (derivable_pt_lim_div (fct_cte 1) cos phi 0 (- sin phi)
                (derivable_pt_lim_const 1 phi)
                (derivable_pt_lim_cos phi) Hc) as D.
  unfold fct_cte in D.
  eapply derivable_pt_lim_ext with (f := (fct_cte 1 / cos)%F) in D.
  - replace (sin phi / (cos phi * cos phi))
      with ((0 * cos phi - - sin phi * 1) / (cos phi)²); [exact D |].
    unfold Rsqr. field. exact Hc.
  - intros z. unfold div_fct, fct_cte, Rdiv. ring.
Qed.

(** C2: for a state with |phi| < pi/2, the four entries of [jacobian_F] are
    1, dx * sec^2 phi = dx * (1 + tan^2 phi), 0 and
    1 - (dx / R) * sin phi / cos^2 phi, and each entry is the partial
    derivative of the matching component of [propagate] with respect to the
    matching component of the state. *)
Theorem jacobian_F_is_derivative (y phi x_from x_to : double) :
  Rabs phi < PI / 2 ->
  let dx := x_to - x_from in
  let F := jacobian_F (mkVec2 y phi) x_from x_to in
  (m00 F = 1
   /\ m01 F = dx * (1 + tan phi * tan phi)
   /\ m01 F = dx * (/ cos phi * / cos phi)
   /\ m10 F = 0
   /\ m11 F = 1 - (dx / R) * sin phi / (cos phi * cos phi))
  /\ derivable_pt_lim
       (fun t => v0 (propagate (mkVec2 t phi) x_from x_to)) y (m00 F)
  /\ derivable_pt_lim
       (fun t => v0 (propagate (mkVec2 y t) x_from x_to)) phi (m01 F)
  /\ derivable_pt_lim
       (fun t => v1 (propagate (mkVec2 t phi) x_from x_to)) y (m10 F)
  /\ derivable_pt_lim
       (fun t => v1 (propagate (mkVec2 y t) x_from x_to)) phi (m11 F).
Proof.
  intros Hphi dx F.
  pose proof (cos_neq_0_in_domain phi Hphi) as Hc.
  split; [| split; [| split; [| split]]].
  - unfold F, jacobian_F; simpl. fold dx. rewrite lit_one, lit_zero.
    pose proof (sin2_cos2 phi) as E. unfold Rsqr in E.
    repeat split.
    + replace (/ cos phi * / cos phi)
        with ((sin phi * sin phi + cos phi * cos phi)
              * (/ cos phi * / cos phi)) by (rewrite E; ring).
      unfold tan. field. exact Hc.
    + unfold Rdiv. ring.
  - (* d y' / d y *)
    unfold F, jacobian_F, propagate; simpl. fold dx.
    apply derivable_pt_lim_ext with (f := (id + fct_cte (dx * tan phi))%F).
    + intros z. reflexivity.
    + rewrite lit_one. replace 1 with (1 + 0) by lra.
      apply derivable_pt_lim_plus;
        [apply derivable_pt_lim_id | apply derivable_pt_lim_const].
  - (* d y' / d phi *)
    unfold F, jacobian_F, propagate; simpl. fold dx.
    apply derivable_pt_lim_ext
      with (f := (fct_cte y + mult_real_fct dx tan)%F).
    + intros z. reflexivity.
    + rewrite lit_one.
      replace (dx * (1 + tan phi * tan phi))
        with (0 + dx * (1 + tan phi * tan phi)) by ring.
      apply derivable_pt_lim_plus; [apply derivable_pt_lim_const |].
      apply derivable_pt_lim_scal.
      now apply derivable_pt_lim_tan_domain.
  - (* d phi' / d y *)
    unfold F, jacobian_F, propagate; simpl. fold dx.
    apply derivable_pt_lim_ext
      with (f := fct_cte (phi - dx / R / cos phi)).
    + intros z. reflexivity.
    + rewrite lit_zero. apply derivable_pt_lim_const.
  - (* d phi' / d phi *)
    unfold F, jacobian_F, propagate; simpl. fold dx.
    apply derivable_pt_lim_ext
      with (f := minus_fct id (mult_real_fct (dx / R) (fun t => / cos t))).
    + intros z. unfold minus_fct, mult_real_fct, id, Rdiv. ring.
    + rewrite lit_one.
      apply derivable_pt_lim_minus; [apply derivable_pt_lim_id |].
      apply derivable_pt_lim_scal.
      now apply derivable_pt_lim_inv_cos.
Qed.

Lemma jacobian_F_is_derivative_witness :
  Rabs 0 < PI / 2 /\
  derivable_pt_lim (fun t => v1 (propagate (mkVec2 5 t) 0 10)) 0
                   (m11 (jacobian_F (mkVec2 5 0) 0 10)).
Proof.
  assert (H0 : Rabs 0 < PI / 2).
  { rewrite Rabs_R0. pose proof PI_RGT_0. lra. }
  split; [exact H0 |].
  exact (proj2 (proj2 (proj2 (proj2
           (jacobian_F_is_derivative 5 0 0 10 H0))))).
Defined.

(* ================================================================== *)
(** * The domain of the motion model is not guarded                   *)
(* ================================================================== *)

Lemma three_outside_domain : PI / 2 <= Rabs 3.
Proof.
  rewrite Rabs_right by lra. pose proof PI_4. lra.
Qed.

Lemma cos_3_neg : cos 3 < 0.
Proof.
  apply cos_lt_0.
  - pose proof PI_4. lra.
  - pose proof PI2_1. lra.
Qed.

(** C3, as stated, fails: at phi = 3, which is outside (-pi/2, pi/2) and
    where the cosine is not zero, both calls return a value and neither
    raises [DomainError]. *)
Lemma domain_guard_counterexample :
  PI / 2 <= Rabs 3
  /\ cos 3 <> 0
  /\ call_propagate (mkVec2 0 3) 0 1
       = Returns (mkVec2 (0 + (1 - 0) * tan 3) (3 - ((1 - 0) / R) / cos 3))
  /\ call_propagate (mkVec2 0 3) 0 1 <> Raises DomainError
  /\ call_jacobian_F (mkVec2 0 3) 0 1 <> Raises DomainError.
Proof.
  split; [exact three_outside_domain |].
  split; [pose proof cos_3_neg; lra |].
  split; [reflexivity |].
  split; discriminate.
Qed.

(** C3, amended: [propagate] and [jacobian_F] test nothing about phi; on
    every state, inside the domain or not, each call returns the value of
    its formulas and raises no error. *)
Theorem motion_model_always_returns (s : SVector2) (x_from x_to : double) :
  let dx := x_to - x_from in
  call_propagate s x_from x_to
    = Returns (mkVec2 (v0 s + dx * tan (v1 s))
                      (v1 s - (dx / R) / cos (v1 s)))
  /\ call_jacobian_F s x_from x_to
    = Returns (mkMat22 1 (dx * (1 + tan (v1 s) * tan (v1 s))) 0
                       (1 - (dx / R)
                            * (sin (v1 s) / (cos (v1 s) * cos (v1 s)))))
  /\ (forall e, call_propagate s x_from x_to <> Raises e)
  /\ (forall e, call_jacobian_F s x_from x_to <> Raises e).
Proof.
  intros dx. unfold call_propagate, call_jacobian_F, propagate, jacobian_F.
  fold dx. rewrite lit_one, lit_zero.
  repeat split; intros e; discriminate.
Qed.

(* ================================================================== *)
(** * Covariance algebra                                              *)
(* ================================================================== *)

Lemma measurement_variance : s00 R_matrix = 4.
Proof. unfold R_matrix, measurement_error; simpl. lra. Qed.

Lemma innovation_S_value (P_pred : SMatrix2x2) :
  s00 (innovation_S P_pred) = m00 P_pred + 4.
Proof.
  unfold innovation_S, add11. cbn [s00]. rewrite measurement_variance.
  unfold mul12_21, mul12_22, Transpose12, H. cbn. rewrite lit_one, lit_zero.
  ring.
Qed.

Lemma kalman_gain_value (P_pred : SMatrix2x2) :
  kalman_gain P_pred
    = mkMat21 (m00 P_pred * / (m00 P_pred + 4))
              (m10 P_pred * / (m00 P_pred + 4)).
Proof.
  unfold kalman_gain, Invert. cbn [snd s00].
  rewrite innovation_S_value.
  unfold mul21_11, mul22_21, Transpose12, H. cbn.
  rewrite lit_one, lit_zero. f_equal; ring.
Qed.

Lemma update_cov_value (P_pred : SMatrix2x2) :
  let t := / (m00 P_pred + 4) in
  update_cov P_pred
    = mkMat22 (m00 P_pred - m00 P_pred * t * m00 P_pred)
              (m01 P_pred - m00 P_pred * t * m01 P_pred)
              (m10 P_pred - m10 P_pred * t * m00 P_pred)
              (m11 P_pred - m10 P_pred * t * m01 P_pred).
Proof.
  intros t. unfold update_cov. rewrite kalman_gain_value. fold t.
  unfold mul22, sub22, mul21_12, SMatrixIdentity, H. cbn.
  rewrite lit_one, lit_zero. f_equal; ring.
Qed.

Lemma quad_form_expand (A : SMatrix2x2) (a b : double) :
  symmetric A ->
  quad_form A a b = m00 A * a * a + 2 * m01 A * a * b + m11 A * b * b.
Proof. unfold symmetric, quad_form. intros E. rewrite <- E. ring. Qed.

Lemma psd_minors (A : SMatrix2x2) :
  symmetric A -> positive_semidefinite A ->
  0 <= m00 A /\ 0 <= m11 A /\ m01 A * m01 A <= m00 A * m11 A.
Proof.
  intros Hs Hp.
  assert (Q1 := Hp 1 0). assert (Q2 := Hp 0 1).
  assert (Q3 := Hp (m01 A) (- m00 A)). assert (Q4 := Hp (m11 A) (- m01 A)).
  assert (Q5 := Hp 1 1). assert (Q6 := Hp 1 (-1)).
  rewrite quad_form_expand in * by assumption.
  assert (H0 : 0 <= m00 A) by lra.
  assert (H1 : 0 <= m11 A) by lra.
  repeat split; try assumption.
  destruct (Rle_lt_or_eq_dec _ _ H0) as [Hpos | Hz].
  - assert (0 <= m00 A * (m00 A * m11 A - m01 A * m01 A)) by lra.
    nra.
  - destruct (Rle_lt_or_eq_dec _ _ H1) as [Hpos1 | Hz1].
    + assert (0 <= m11 A * (m00 A * m11 A - m01 A * m01 A)) by lra.
      nra.
    + rewrite <- Hz, <- Hz1 in *. assert (m01 A = 0) by lra. nra.
Qed.

Lemma psd_of_minors (A : SMatrix2x2) :
  symmetric A ->
  0 <= m00 A -> 0 <= m11 A -> m01 A * m01 A <= m00 A * m11 A ->
  positive_semidefinite A.
Proof.
  intros Hs H0 H1 Hd a b. rewrite quad_form_expand by assumption.
  destruct (Rle_lt_or_eq_dec _ _ H0) as [Hpos | Hz].
  - assert (E : m00 A * (m00 A * a * a + 2 * m01 A * a * b + m11 A * b * b)
                = (m00 A * a + m01 A * b) * (m00 A * a + m01 A * b)
                  + (m00 A * m11 A - m01 A * m01 A) * (b * b)) by ring.
    pose proof (Rle_0_sqr (m00 A * a + m01 A * b)) as S1.
    pose proof (Rle_0_sqr b) as S2. unfold Rsqr in S1, S2.
    assert (S3 : 0 <= (m00 A * m11 A - m01 A * m01 A) * (b * b))
      by (apply Rmult_le_pos; lra).
    apply Rmult_le_reg_l with (r := m00 A); [exact Hpos |].
    rewrite E. lra.
  - rewrite <- Hz in *. assert (m01 A = 0) by nra. nra.
Qed.









Lemma P_est_initial_ok :
  symmetric P_est_initial /\ positive_semidefinite P_est_initial.
Proof.
  assert (Hs : symmetric P_est_initial) by reflexivity.
  split; [exact Hs |].
  apply psd_of_minors; [exact Hs | | |]; unfold P_est_initial; cbn; lra.
Qed.

(* ================================================================== *)
(** * The filter loop                                                 *)
(* ================================================================== *)

Section FilterRun.

Context {TRandom3 : Type}.
Variable Gaus : TRandom3 -> double -> double -> double * TRandom3.

Lemma kf_after_0 (l : Locals TRandom3) : kf_after Gaus l 0 = kf_init Gaus l.
Proof. reflexivity. Qed.

Lemma kf_after_S (l : Locals TRandom3) (i : nat) :
  kf_after Gaus l (S i) = kf_iteration (kf_after Gaus l i) i.
Proof.
  unfold kf_after. rewrite seq_S, fold_left_app. reflexivity.
Qed.

Lemma kalman_filter_kf_after (l : Locals TRandom3) :
  kalman_filter Gaus l = kf_after Gaus l n_layers.
Proof. unfold kalman_filter, kf_after. reflexivity. Qed.




End FilterRun.



Section Binary64Facts.

Import PrimFloat.
#[local] Set Warnings "-inexact-float".



End Binary64Facts.

(* ================================================================== *)
(** * The inversion of the innovation covariance                      *)
(* ================================================================== *)



(* ================================================================== *)
(** * Lists indexed by [seq]                                          *)
(* ================================================================== *)

Lemma map_nth_seq {A : Type} (d : A) (l : list A) :
  map (fun i => nth i l d) (seq 0 (length l)) = l.
Proof.
  induction l as [| a l IH]; [reflexivity |].
  cbn [length seq map nth]. f_equal.
  rewrite <- seq_shift, map_map. exact IH.
Qed.

Lemma seq_add_map (a s len : nat) :
  seq (a + s) len = map (fun k => (a + k)%nat) (seq s len).
Proof.
  revert s. induction len as [| len IH]; intros s; [reflexivity |].
  cbn [seq map]. f_equal.
  replace (S (a + s)) with (a + S s)%nat by lia. apply IH.
Qed.

Lemma app_same_length_inv {A : Type} (x x' y y' : list A) :
  length x = length x' -> x ++ y = x' ++ y' -> x = x' /\ y = y'.
Proof.
  revert x'. induction x as [| a x IH]; intros [| a' x'] Hl E;
    try discriminate Hl.
  - split; [reflexivity | exact E].
  - cbn in E, Hl. injection E as -> E. injection Hl as Hl.
    destruct (IH x' Hl E) as [-> ->]. split; reflexivity.
Qed.

Lemma Some_eq_inv {A : Type} (x y : A) : Some x = Some y -> x = y.
Proof. intros E. now injection E. Qed.

Lemma fold_left_seq_S {A : Type} (f : A -> nat -> A) (n : nat) (a : A) :
  fold_left f (seq 0 (S n)) a = f (fold_left f (seq 0 n) a) n.
Proof. rewrite seq_S, fold_left_app. reflexivity. Qed.

(** The image of an interval of indices under a strictly increasing map is
    strictly increasing. *)
Lemma sorted_map_seq (f : nat -> double) (s len : nat) :
  (forall i j : nat, (i < j)%nat -> f i < f j) ->
  StronglySorted Rlt (map f (seq s len)).
Proof.
  intros Hf. revert s. induction len as [| len IH]; intros s.
  - constructor.
  - cbn [seq map]. constructor; [apply IH |].
    apply Forall_forall. intros x Hx.
    apply in_map_iff in Hx. destruct Hx as (k & <- & Hk).
    apply in_seq in Hk. apply Hf. lia.
Qed.

Lemma last_map_seq (f : nat -> double) (s len : nat) (d : double) :
  last (map f (seq s (S len))) d = f (s + len)%nat.
Proof.
  rewrite seq_S, map_app. cbn [map]. apply last_last.
Qed.

(* ================================================================== *)
(** * Layer positions                                                 *)
(* ================================================================== *)

Lemma layer_positions_indexed :
  map layer_pos (seq 0 n_layers) = layer_x_positions.
Proof. exact (map_nth_seq 0 layer_x_positions). Qed.

Lemma layer_x_positions_sorted : StronglySorted Rlt layer_x_positions.
Proof.
  unfold layer_x_positions.
  repeat (constructor; [| repeat (constructor; try lra)]).
  constructor.
Qed.

Lemma layer_pos_value (i : nat) :
  (i < n_layers)%nat -> layer_pos i = 10 * INR (S i).
Proof.
  unfold n_layers. intros Hi.
  do 10 (destruct i as [| i];
         [unfold layer_pos, layer_x_positions; cbn [nth]; simpl INR; lra |]).
  lia.
Qed.

Lemma prev_pos_value (i : nat) :
  (i <= n_layers)%nat -> prev_pos i = 10 * INR i.
Proof.
  intros Hi. destruct i as [| i].
  - cbn. lra.
  - cbn [prev_pos]. apply layer_pos_value. lia.
Qed.

Lemma INR_20 : INR 20 = 20.
Proof. simpl INR. lra. Qed.

(* ================================================================== *)
(** * The ground-truth loops                                          *)
(* ================================================================== *)

Section GroundTruth.

Context {TRandom3 : Type}.

(** The inner loop started [n] half-units below its bound makes exactly
    [n] steps, given fuel for [n + 1] tests: it appends the [n] abscissae
    [x0 + k / 2], k = 1..n, and as many ordinates, and touches neither the
    generator nor [last_x]. *)
Lemma dense_steps_run (n fuel : nat) (x0 : double) (l : Locals TRandom3) :
  (n < fuel)%nat ->
  exists l',
    dense_steps fuel x0 (x0 + INR n * 0.5) l = Some l'
    /\ rng l' = rng l
    /\ last_x l' = last_x l
    /\ true_x l' = true_x l ++ map (fun k => x0 + INR k * 0.5) (seq 1 n)
    /\ length (true_y l') = (length (true_y l) + n)%nat.
Proof.
  revert fuel x0 l. induction n as [| n IH]; intros fuel x0 l Hf.
  - destruct fuel as [| fuel]; [lia |]. cbn [dense_steps].
    destruct (Rlt_dec x0 (x0 + INR 0 * 0.5)) as [Hlt | _].
    + cbn [INR] in Hlt. lra.
    + exists l. cbn [seq map]. rewrite app_nil_r.
      repeat split; try reflexivity. lia.
  - destruct fuel as [| fuel]; [lia |]. cbn [dense_steps].
    destruct (Rlt_dec x0 (x0 + INR (S n) * 0.5)) as [_ | Hge].
    + replace (x0 + INR (S n) * 0.5) with ((x0 + 0.5) + INR n * 0.5)
        by (rewrite S_INR; lra).
      match goal with
      | |- exists l', dense_steps fuel _ _ ?l0 = _ /\ _ =>
          destruct (IH fuel (x0 + 0.5) l0 ltac:(lia))
            as (l' & E & Hr & Hl & Hx & Hy)
      end.
      exists l'. split; [exact E |].
      cbn [rng last_x true_x true_y] in Hr, Hl, Hx, Hy.
      repeat split; [exact Hr | exact Hl | |].
      * rewrite Hx, <- app_assoc. f_equal.
        cbn [seq map app]. f_equal; [simpl INR; lra |].
        rewrite <- (seq_shift n 1), map_map. apply map_ext.
        intros k. rewrite S_INR. lra.
      * rewrite Hy, length_app. cbn [length]. lia.
    + exfalso. apply Hge. pose proof (pos_INR n). rewrite S_INR. lra.
Qed.

Lemma truth_after_S (fuel : nat) (l : Locals TRandom3) (i : nat) :
  truth_after fuel l (S i) = truth_layer fuel (truth_after fuel l i) i.
Proof. apply fold_left_seq_S. Qed.

(** After [i] passes of the outer loop the recorded abscissae are
    0.5, 1, ..., 10 i. *)
Lemma truth_after_run (fuel : nat) (l : Locals TRandom3) (i : nat) :
  (21 <= fuel)%nat -> (i <= n_layers)%nat ->
  last_x l = 0 -> true_x l = [] -> true_y l = [] ->
  exists l',
    truth_after fuel l i = Some l'
    /\ rng l' = rng l
    /\ last_x l' = prev_pos i
    /\ true_x l' = map (fun k => INR k * 0.5) (seq 1 (20 * i))
    /\ length (true_y l') = (20 * i)%nat.
Proof.
  intros Hf Hi H0 Hx0 Hy0. induction i as [| i IH].
  - exists l. cbn [truth_after seq fold_left Nat.mul map prev_pos length].
    repeat split; try assumption. rewrite Hy0. reflexivity.
  - destruct (IH ltac:(lia)) as (l1 & E & Hr & Hl & Hx & Hy).
    rewrite truth_after_S, E. cbn [truth_layer]. fold (layer_pos i).
    assert (Ec : layer_pos i = last_x l1 + INR 20 * 0.5).
    { rewrite Hl, layer_pos_value, prev_pos_value, S_INR, INR_20 by lia.
      lra. }
    rewrite Ec.
    destruct (dense_steps_run 20 fuel (last_x l1) l1 ltac:(lia))
      as (l2 & E2 & Hr2 & Hl2 & Hx2 & Hy2).
    rewrite E2. eexists. split; [reflexivity |].
    cbn [set_last_x rng last_x true_x true_y].
    repeat split.
    + congruence.
    + cbn [prev_pos]. exact (eq_sym Ec).
    + rewrite Hx2, Hx.
      replace (20 * S i)%nat with (20 * i + 20)%nat by lia.
      rewrite seq_app, map_app. f_equal.
      replace (1 + 20 * i)%nat with (20 * i + 1)%nat by lia.
      rewrite seq_add_map, map_map. apply map_ext. intros k.
      rewrite Hl, prev_pos_value, plus_INR, mult_INR, INR_20 by lia. lra.
    + rewrite Hy2, Hy. lia.
Qed.

Lemma ground_truth_run (fuel : nat) (rng0 : TRandom3) :
  (21 <= fuel)%nat ->
  exists l',
    ground_truth fuel (locals_initial rng0) = Some l'
    /\ rng l' = rng0
    /\ true_x l' = map (fun k => INR k * 0.5) (seq 1 200)
    /\ length (true_y l') = 200%nat.
Proof.
  intros Hf.
  destruct (truth_after_run fuel (locals_initial rng0) n_layers Hf
              (le_n _) lit_zero eq_refl eq_refl)
    as (l' & E & Hr & _ & Hx & Hy).
  exists l'. repeat split; assumption.
Qed.

End GroundTruth.

(* ================================================================== *)
(** * The measurement loop and the data flow of the filter            *)
(* ================================================================== *)

Section Simulation.

Context {TRandom3 : Type}.
Variable Gaus : TRandom3 -> double -> double -> double * TRandom3.

Lemma measure_after_S (l : Locals TRandom3) (i : nat) :
  measure_after Gaus l (S i)
  = measure_layer Gaus (measure_after Gaus l i) i.
Proof. apply fold_left_seq_S. Qed.

Lemma simulate_measurements_measure_after (l : Locals TRandom3) :
  simulate_measurements Gaus l = measure_after Gaus l n_layers.
Proof. unfold simulate_measurements, measure_after. reflexivity. Qed.

(** After [i] passes the true state has made [i] layer-to-layer steps
    from the initial state, the generator has been called [i] times, and
    hit [j] is the ordinate of the true state at layer [j] plus the
    sample of call [j]. *)
Lemma measure_after_spec (l : Locals TRandom3) (i : nat) :
  let m := measure_after Gaus l i in
  current_true_state m = true_state_after i
  /\ last_x m = prev_pos i
  /\ rng m = rng_after Gaus (rng l) i
  /\ measured_y m
     = map (fun j => v0 (true_state_after (S j))
                     + fst (Gaus (rng_after Gaus (rng l) j) 0
                                 measurement_error))
           (seq 0 i)
  /\ true_x m = true_x l /\ true_y m = true_y l.
Proof.
  induction i as [| i IH].
  - cbv zeta. unfold measure_after, measure_reset.
    cbn [seq fold_left map]. repeat split.
  - cbv zeta in *. rewrite measure_after_S.
    destruct IH as (Hs & Hl & Hr & Hm & Hx & Hy).
    unfold measure_layer. fold (layer_pos i).
    rewrite Hs, Hl, Hr, Hm, Hx, Hy.
    destruct (Gaus (rng_after Gaus (rng l) i) 0 measurement_error)
      as [noise g'] eqn:Eg.
    cbn [current_true_state last_x rng measured_y true_x true_y].
    repeat split.
    + cbn [rng_after]. rewrite Eg. reflexivity.
    + rewrite seq_S, map_app. cbn [map Nat.add true_state_after].
      rewrite Eg. reflexivity.
Qed.

Lemma kf_init_fields (l : Locals TRandom3) :
  let k := kf_init Gaus l in
  rng k = snd (Gaus (snd (Gaus (rng l) 0 5.0)) 0 0.1)
  /\ x_est k
     = mkVec2 (v0 true_state_initial + fst (Gaus (rng l) 0 5.0))
              (v1 true_state_initial
               + fst (Gaus (snd (Gaus (rng l) 0 5.0)) 0 0.1))
  /\ P_est k = P_est_initial /\ last_kf_x k = 0
  /\ kf_x k = [] /\ kf_y k = []
  /\ measured_y k = measured_y l
  /\ true_x k = true_x l /\ true_y k = true_y l.
Proof.
  cbv zeta. unfold kf_init.
  destruct (Gaus (rng l) 0 5.0) as [n0 g1]. cbn [fst snd].
  destruct (Gaus g1 0 0.1) as [n1 g2]. cbn.
  repeat split. exact lit_zero.
Qed.

(** The filter loop appends one fitted point per pass, at the layer
    positions in order, and touches neither the hits, the true track nor
    the generator. *)
Lemma kf_after_data (l : Locals TRandom3) (i : nat) :
  let k := kf_after Gaus l i in
  kf_x k = map layer_pos (seq 0 i)
  /\ kf_y k = map (fun j => v0 (x_est (kf_after Gaus l (S j)))) (seq 0 i)
  /\ measured_y k = measured_y l
  /\ true_x k = true_x l /\ true_y k = true_y l
  /\ rng k = rng (kf_init Gaus l).
Proof.
  cbv zeta.
  destruct (kf_init_fields l) as (_ & _ & _ & _ & Hx & Hy & Hm & Htx & Hty).
  induction i as [| i IH].
  - rewrite kf_after_0, Hx, Hy. repeat split; assumption.
  - rewrite kf_after_S. destruct IH as (I1 & I2 & I3 & I4 & I5 & I6).
    unfold kf_iteration, kf_layer.
    cbn [kf_x kf_y measured_y true_x true_y rng].
    repeat split; try assumption.
    + rewrite I1, seq_S, map_app. reflexivity.
    + rewrite I2, seq_S, map_app. cbn [map Nat.add]. f_equal.
      rewrite (kf_after_S Gaus l i). reflexivity.
Qed.

End Simulation.

(** The filter loop is a function of the data it reads: two runs that agree
    on them, whatever their generators and true tracks, stay in agreement. *)
Lemma kf_iteration_same {G1 G2 : Type} (a : Locals G1) (b : Locals G2)
    (i : nat) :
  same_filter_data a b ->
  same_filter_data (kf_iteration a i) (kf_iteration b i).
Proof.
  unfold same_filter_data. intros (Hm & Hx & Hy & He & Hp & Hl).
  unfold kf_iteration, kf_layer.
  cbn [measured_y kf_x kf_y x_est P_est last_kf_x].
  rewrite Hm, Hx, Hy, He, Hp, Hl. repeat split.
Qed.

Lemma kf_loop_same {G1 G2 : Type} (a : Locals G1) (b : Locals G2)
    (i : nat) :
  same_filter_data a b ->
  same_filter_data (fold_left kf_iteration (seq 0 i) a)
                   (fold_left kf_iteration (seq 0 i) b).
Proof.
  intros Hab. induction i as [| i IH]; [exact Hab |].
  rewrite !fold_left_seq_S. now apply kf_iteration_same.
Qed.

(** Simulation followed by the filter depends on the incoming locals only
    through the samples the generator delivers. *)
Lemma sim_filter_agree {G1 G2 : Type}
    (Gaus1 : G1 -> double -> double -> double * G1)
    (Gaus2 : G2 -> double -> double -> double * G2)
    (l1 : Locals G1) (l2 : Locals G2) :
  noise_draws Gaus1 (rng l1) = noise_draws Gaus2 (rng l2) ->
  same_filter_data (kalman_filter Gaus1 (simulate_measurements Gaus1 l1))
                   (kalman_filter Gaus2 (simulate_measurements Gaus2 l2)).
Proof.
  intros Hd. unfold noise_draws in Hd.
  apply app_same_length_inv in Hd; [| now rewrite !length_map].
  destruct Hd as [Hd Ht].
  pose proof (f_equal (fun t => nth 0 t 0) Ht) as Hd1.
  pose proof (f_equal (fun t => nth 1 t 0) Ht) as Hd2.
  cbn [nth] in Hd1, Hd2. clear Ht.
  unfold kalman_filter. apply kf_loop_same.
  rewrite !simulate_measurements_measure_after.
  destruct (measure_after_spec Gaus1 l1 n_layers)
    as (_ & _ & Hr1 & Hm1 & _).
  destruct (measure_after_spec Gaus2 l2 n_layers)
    as (_ & _ & Hr2 & Hm2 & _).
  destruct (kf_init_fields Gaus1 (measure_after Gaus1 l1 n_layers))
    as (_ & He1 & Hp1 & Hl1 & Hx1 & Hy1 & Hk1 & _).
  destruct (kf_init_fields Gaus2 (measure_after Gaus2 l2 n_layers))
    as (_ & He2 & Hp2 & Hl2 & Hx2 & Hy2 & Hk2 & _).
  unfold same_filter_data.
  rewrite Hk1, Hk2, Hx1, Hx2, Hy1, Hy2, He1, He2, Hp1, Hp2, Hl1, Hl2.
  rewrite Hm1, Hm2, Hr1, Hr2.
  repeat split.
  - (* the hits *)
    clear - Hd. revert Hd. generalize (seq 0 n_layers) as js.
    induction js as [| j js IH]; intros Hd; [reflexivity |].
    cbn [map] in *. injection Hd as E0 E. rewrite E0. f_equal. now apply IH.
  - (* the initial guess *)
    rewrite Hd1, Hd2. reflexivity.
Qed.

(* ================================================================== *)
(** * The whole run                                                   *)
(* ================================================================== *)

Lemma nth_map_seq {A : Type} (f : nat -> A) (n i : nat) (d : A) :
  (i < n)%nat -> nth i (map f (seq 0 n)) d = f i.
Proof.
  intros Hi.
  rewrite (nth_indep _ d (f 0%nat)) by (rewrite length_map, length_seq; lia).
  rewrite map_nth, seq_nth by lia. reflexivity.
Qed.

Section WholeRun.

Context {TRandom3 : Type}.
Variable Gaus : TRandom3 -> double -> double -> double * TRandom3.

(** With fuel for 21 tests of the inner loop condition the program
    reaches its output; the locals then hold 200 true-track points, ten
    hits and ten fitted points. *)
Lemma run_shape (fuel : nat) (rng0 : TRandom3) :
  (21 <= fuel)%nat ->
  exists l,
    run Gaus fuel rng0 = Some l
    /\ true_x l = map (fun k => INR k * 0.5) (seq 1 200)
    /\ length (true_y l) = 200%nat
    /\ measured_y l
       = map (fun j => v0 (true_state_after (S j))
                       + fst (Gaus (rng_after Gaus rng0 j) 0
                                   measurement_error))
             (seq 0 n_layers)
    /\ kf_x l = map layer_pos (seq 0 n_layers)
    /\ length (kf_y l) = n_layers
    /\ rng l = snd (Gaus (snd (Gaus (rng_after Gaus rng0 n_layers) 0 5.0))
                         0 0.1).
Proof.
  intros Hf. unfold run.
  destruct (ground_truth_run fuel rng0 Hf) as (l1 & E & Hr & Hx & Hy).
  rewrite E. eexists. split; [reflexivity |].
  rewrite kalman_filter_kf_after.
  destruct (kf_after_data Gaus (simulate_measurements Gaus l1) n_layers)
    as (K1 & K2 & K3 & K4 & K5 & K6).
  rewrite K1, K2, K3, K4, K5, K6.
  destruct (kf_init_fields Gaus (simulate_measurements Gaus l1))
    as (I1 & _).
  rewrite I1, simulate_measurements_measure_after.
  destruct (measure_after_spec Gaus l1 n_layers)
    as (_ & _ & M1 & M2 & M3 & M4).
  rewrite M1, M2, M3, M4, Hr, Hx, Hy, length_map, length_seq.
  repeat split.
Qed.

Lemma emit_detector_layers (l : Locals TRandom3) :
  detector_layers (emit l) = layer_x_positions.
Proof. unfold emit. cbn [detector_layers]. apply layer_positions_indexed. Qed.

Lemma emit_true_track_x (l : Locals TRandom3) :
  map fst (true_track (emit l)) = true_x l.
Proof.
  unfold emit. cbn [true_track]. rewrite map_map. cbn [fst].
  apply map_nth_seq.
Qed.

Lemma emit_hits (l : Locals TRandom3) :
  hits (emit l)
  = map (fun i => (layer_pos i, nth i (measured_y l) 0)) (seq 0 n_layers).
Proof. reflexivity. Qed.

Lemma emit_hits_x (l : Locals TRandom3) :
  map fst (hits (emit l)) = layer_x_positions.
Proof.
  rewrite emit_hits, map_map. cbn [fst]. apply layer_positions_indexed.
Qed.

Lemma emit_kf_track_x (l : Locals TRandom3) :
  map fst (kf_track (emit l)) = kf_x l.
Proof.
  unfold emit. cbn [kf_track]. rewrite map_map. cbn [fst].
  apply map_nth_seq.
Qed.

End WholeRun.

(** C6: in the fixed configuration the program reaches its output with
    exactly ten hits and ten fitted points, both at the ten layer positions
    in layer order; hit [i] is the ordinate of the true state stepped layer
    to layer up to layer [i], plus the sample of the [i]-th call
    [Gaus(0, measurement_error)]. *)
Theorem scenario_hits_and_fitted_points {TRandom3 : Type}
    (Gaus : TRandom3 -> double -> double -> double * TRandom3)
    (rng0 : TRandom3) (fuel : nat) :
  (21 <= fuel)%nat ->
  exists out,
    main Gaus fuel rng0 = Some out
    /\ length (hits out) = 10%nat
    /\ length (kf_track out) = 10%nat
    /\ map fst (hits out) = [10; 20; 30; 40; 50; 60; 70; 80; 90; 100]
    /\ map fst (kf_track out) = [10; 20; 30; 40; 50; 60; 70; 80; 90; 100]
    /\ (forall i : nat, (i < 10)%nat ->
          nth i (hits out) (0, 0)
          = (layer_pos i,
             v0 (true_state_after (S i))
             + fst (Gaus (rng_after Gaus rng0 i) 0 measurement_error)))
    /\ true_state_after 0 = mkVec2 5 (-0.2)
    /\ measurement_error = 2.
Proof.
  intros Hf.
  destruct (run_shape Gaus fuel rng0 Hf)
    as (l & E & _ & _ & Hm & Hk & Hky & _).
  exists (emit l). unfold main. rewrite E. split; [reflexivity |].
  assert (Hkx : map fst (kf_track (emit l)) = layer_x_positions).
  { rewrite emit_kf_track_x, Hk. apply layer_positions_indexed. }
  split; [rewrite emit_hits, length_map, length_seq; reflexivity |].
  split.
  { rewrite <- (length_map fst), Hkx. reflexivity. }
  split; [apply emit_hits_x |].
  split; [exact Hkx |].
  split.
  - intros i Hi. rewrite emit_hits.
    rewrite nth_map_seq by exact Hi. f_equal.
    rewrite Hm. rewrite nth_map_seq by exact Hi. reflexivity.
  - split.
    + cbn [true_state_after]. unfold true_state_initial. f_equal; lra.
    + unfold measurement_error. lra.
Qed.

Lemma scenario_hits_and_fitted_points_witness :
  (21 <= 21)%nat
  /\ exists out,
       main Gaus_mean 21 tt = Some out
       /\ length (hits out) = 10%nat /\ length (kf_track out) = 10%nat.
Proof.
  split; [apply le_n |].
  destruct (scenario_hits_and_fitted_points Gaus_mean tt 21 (le_n 21))
    as (out & E & Hh & Hk & _).
  exists out. repeat split; assumption.
Defined.

(** C9: every sequence of the output is strictly increasing in x; the true
    track has 200 points, from x = 0.5 to x = 100, the position of the last
    layer. *)
Theorem output_sequences_increasing {TRandom3 : Type}
    (Gaus : TRandom3 -> double -> double -> double * TRandom3)
    (rng0 : TRandom3) (fuel : nat) :
  (21 <= fuel)%nat ->
  exists out,
    main Gaus fuel rng0 = Some out
    /\ StronglySorted Rlt (detector_layers out)
    /\ StronglySorted Rlt (map fst (true_track out))
    /\ StronglySorted Rlt (map fst (hits out))
    /\ StronglySorted Rlt (map fst (kf_track out))
    /\ length (true_track out) = 200%nat
    /\ hd 0 (map fst (true_track out)) = 0.5
    /\ last (map fst (true_track out)) 0 = 100
    /\ last (detector_layers out) 0 = 100.
Proof.
  intros Hf.
  destruct (run_shape Gaus fuel rng0 Hf)
    as (l & E & Hx & _ & _ & Hk & _).
  exists (emit l). unfold main. rewrite E. split; [reflexivity |].
  rewrite emit_detector_layers, emit_true_track_x, emit_hits_x,
    emit_kf_track_x, Hk, layer_positions_indexed.
  rewrite <- (length_map fst (true_track (emit l))), emit_true_track_x, Hx.
  split; [exact layer_x_positions_sorted |].
  split; [apply sorted_map_seq; intros i j Hij; apply lt_INR in Hij; lra |].
  split; [exact layer_x_positions_sorted |].
  split; [exact layer_x_positions_sorted |].
  split; [rewrite length_map, length_seq; reflexivity |].
  split; [cbn [seq map hd]; simpl INR; lra |].
  split.
  - rewrite (last_map_seq _ 1 199).
    replace (1 + 199)%nat with (20 * 10)%nat by reflexivity.
    rewrite mult_INR, INR_20. simpl INR. lra.
  - unfold layer_x_positions. cbn [last]. reflexivity.
Qed.

Lemma output_sequences_increasing_witness :
  (21 <= 21)%nat
  /\ exists out,
       main Gaus_mean 21 tt = Some out
       /\ StronglySorted Rlt (map fst (true_track out))
       /\ last (map fst (true_track out)) 0 = 100.
Proof.
  split; [apply le_n |].
  destruct (output_sequences_increasing Gaus_mean tt 21 (le_n 21))
    as (out & E & _ & Hs & _ & _ & _ & _ & Hl & _).
  exists out. repeat split; assumption.
Defined.

(* ================================================================== *)
(** * What the fitted track depends on                                *)
(* ================================================================== *)

Lemma emit_hits_same {G1 G2 : Type} (a : Locals G1) (b : Locals G2) :
  measured_y a = measured_y b -> hits (emit a) = hits (emit b).
Proof. intros E. rewrite !emit_hits, E. reflexivity. Qed.

Lemma emit_kf_track_same {G1 G2 : Type} (a : Locals G1) (b : Locals G2) :
  kf_x a = kf_x b -> kf_y a = kf_y b ->
  kf_track (emit a) = kf_track (emit b).
Proof. intros Ex Ey. unfold emit. cbn [kf_track]. rewrite Ex, Ey. reflexivity. Qed.

(** C7: the fitted track is a function of the hits and of the initial
    guess.  Two runs of the filter that read the same hits and start from
    the same initial guess emit the same fitted track, whatever their true
    tracks (and generators) are; and simulation followed by the filter, run
    from the same generator state, emits the same hits and the same fitted
    track whatever the ground-truth loop has left in the locals. *)
Theorem kf_track_ignores_true_track :
  (forall (G1 G2 : Type)
          (Gaus1 : G1 -> double -> double -> double * G1)
          (Gaus2 : G2 -> double -> double -> double * G2)
          (a : Locals G1) (b : Locals G2),
      measured_y a = measured_y b ->
      x_est (kf_init Gaus1 a) = x_est (kf_init Gaus2 b) ->
      kf_track (emit (kalman_filter Gaus1 a))
      = kf_track (emit (kalman_filter Gaus2 b)))
  /\ (forall (G : Type) (Gaus : G -> double -> double -> double * G)
             (l1 l2 : Locals G),
         rng l1 = rng l2 ->
         hits (emit (kalman_filter Gaus (simulate_measurements Gaus l1)))
         = hits (emit (kalman_filter Gaus (simulate_measurements Gaus l2)))
         /\ kf_track (emit (kalman_filter Gaus (simulate_measurements Gaus l1)))
            = kf_track
                (emit (kalman_filter Gaus (simulate_measurements Gaus l2)))).
Proof.
  split.
  - intros G1 G2 Gaus1 Gaus2 a b Hm He.
    assert (Hs : same_filter_data (kalman_filter Gaus1 a)
                                  (kalman_filter Gaus2 b)).
    { unfold kalman_filter. apply kf_loop_same.
      destruct (kf_init_fields Gaus1 a)
        as (_ & _ & Hp1 & Hl1 & Hx1 & Hy1 & Hk1 & _).
      destruct (kf_init_fields Gaus2 b)
        as (_ & _ & Hp2 & Hl2 & Hx2 & Hy2 & Hk2 & _).
      unfold same_filter_data.
      rewrite Hk1, Hk2, Hx1, Hx2, Hy1, Hy2, Hp1, Hp2, Hl1, Hl2, Hm, He.
      repeat split. }
    destruct Hs as (_ & Hx & Hy & _). now apply emit_kf_track_same.
  - intros G Gaus l1 l2 Hr.
    assert (Hs : same_filter_data
                   (kalman_filter Gaus (simulate_measurements Gaus l1))
                   (kalman_filter Gaus (simulate_measurements Gaus l2))).
    { apply sim_filter_agree. now rewrite Hr. }
    destruct Hs as (Hm & Hx & Hy & _).
    split; [now apply emit_hits_same | now apply emit_kf_track_same].
Qed.

Lemma kf_track_ignores_true_track_witness :
  let a := mkLocals tt [1] [7] (mkVec2 7 0) 1 [3; 4] [] []
                    (mkVec2 0 0) (mkMat22 0 0 0 0) 0 in
  let b := mkLocals tt [2; 3] [8; 9] (mkVec2 9 1) 3 [3; 4] [] []
                    (mkVec2 0 0) (mkMat22 0 0 0 0) 0 in
  true_x a <> true_x b
  /\ measured_y a = measured_y b
  /\ x_est (kf_init Gaus_mean a) = x_est (kf_init Gaus_mean b)
  /\ kf_track (emit (kalman_filter Gaus_mean a))
     = kf_track (emit (kalman_filter Gaus_mean b)).
Proof.
  intros a b.
  assert (Hm : measured_y a = measured_y b) by reflexivity.
  assert (He : x_est (kf_init Gaus_mean a) = x_est (kf_init Gaus_mean b))
    by reflexivity.
  split; [discriminate |]. split; [exact Hm |]. split; [exact He |].
  exact (proj1 kf_track_ignores_true_track unit unit Gaus_mean Gaus_mean
           a b Hm He).
Defined.

(* ================================================================== *)
(** * Determinism and the order of the calls to the generator         *)
(* ================================================================== *)

(** Whether the ground-truth loops finish within the fuel, and what they
    record, does not depend on the generator. *)
Lemma dense_steps_same {G1 G2 : Type} (fuel : nat) (x c : double)
    (a : Locals G1) (b : Locals G2) :
  same_truth_data a b ->
  match dense_steps fuel x c a, dense_steps fuel x c b with
  | Some a', Some b' => same_truth_data a' b'
  | None, None => True
  | _, _ => False
  end.
Proof.
  revert x a b. induction fuel as [| fuel IH]; intros x a b Hab.
  - exact I.
  - cbn [dense_steps]. destruct (Rlt_dec x c) as [_ | _]; [| exact Hab].
    apply IH. destruct Hab as (Hx & Hy & Hs & Hl).
    unfold same_truth_data.
    cbn [true_x true_y current_true_state last_x].
    rewrite Hx, Hy, Hs, Hl. repeat split.
Qed.

Lemma truth_after_same {G1 G2 : Type} (fuel : nat)
    (a : Locals G1) (b : Locals G2) (i : nat) :
  same_truth_data a b ->
  match truth_after fuel a i, truth_after fuel b i with
  | Some a', Some b' => same_truth_data a' b'
  | None, None => True
  | _, _ => False
  end.
Proof.
  intros Hab. induction i as [| i IH]; [exact Hab |].
  rewrite !truth_after_S.
  destruct (truth_after fuel a i) as [a1 |], (truth_after fuel b i) as [b1 |];
    try contradiction; [| exact I].
  cbn [truth_layer].
  assert (El : last_x a1 = last_x b1) by apply IH. rewrite El.
  pose proof (dense_steps_same fuel (last_x b1)
                (nth i layer_x_positions 0) a1 b1 IH) as D.
  destruct (dense_steps fuel _ _ a1) as [a2 |],
           (dense_steps fuel _ _ b1) as [b2 |];
    try contradiction; [| exact I].
  destruct D as (Hx & Hy & Hs & _). unfold same_truth_data, set_last_x.
  cbn [true_x true_y current_true_state last_x].
  repeat split; assumption.
Qed.

Lemma rng_after_logged {G : Type}
    (Gaus : G -> double -> double -> double * G)
    (g : G) (log : list (double * double)) (i : nat) :
  rng_after (Gaus_logged Gaus) (g, log) i
  = (rng_after Gaus g i, log ++ repeat (0, measurement_error) i).
Proof.
  induction i as [| i IH].
  - cbn [rng_after repeat]. now rewrite app_nil_r.
  - cbn [rng_after]. rewrite IH. unfold Gaus_logged. cbn [fst snd].
    destruct (Gaus (rng_after Gaus g i) 0 measurement_error) as [x g'].
    cbn [snd]. rewrite <- app_assoc. do 2 f_equal.
    change [(0, measurement_error)] with (repeat (0, measurement_error) 1).
    rewrite <- repeat_app. f_equal. lia.
Qed.

Lemma Gaus_logged_fst {G : Type}
    (Gaus : G -> double -> double -> double * G)
    (s : G * list (double * double)) (mean sigma : double) :
  fst (Gaus_logged Gaus s mean sigma) = fst (Gaus (fst s) mean sigma)
  /\ fst (snd (Gaus_logged Gaus s mean sigma)) = snd (Gaus (fst s) mean sigma)
  /\ snd (snd (Gaus_logged Gaus s mean sigma)) = snd s ++ [(mean, sigma)].
Proof.
  unfold Gaus_logged. destruct (Gaus (fst s) mean sigma) as [x g'].
  repeat split.
Qed.

(** Recording the calls does not change the samples. *)
Lemma noise_draws_logged {G : Type}
    (Gaus : G -> double -> double -> double * G) (g : G) :
  noise_draws (Gaus_logged Gaus) (g, []) = noise_draws Gaus g.
Proof.
  unfold noise_draws. f_equal.
  - apply map_ext. intros i. rewrite rng_after_logged.
    now rewrite (proj1 (Gaus_logged_fst Gaus _ _ _)).
  - rewrite rng_after_logged.
    set (s := (rng_after Gaus g n_layers,
               [] ++ repeat (0, measurement_error) n_layers)).
    destruct (Gaus_logged_fst Gaus s 0 5.0) as (F1 & F2 & _).
    rewrite F1. f_equal. f_equal.
    destruct (Gaus_logged_fst Gaus (snd (Gaus_logged Gaus s 0 5.0)) 0 0.1)
      as (F3 & _).
    rewrite F3, F2. reflexivity.
Qed.

(** The ground-truth loops never call the generator. *)
Lemma dense_steps_rng {G : Type} (fuel : nat) (x c : double)
    (l l' : Locals G) :
  dense_steps fuel x c l = Some l' -> rng l' = rng l.
Proof.
  revert x l. induction fuel as [| fuel IH]; intros x l E; [discriminate |].
  cbn [dense_steps] in E. destruct (Rlt_dec x c).
  - apply IH in E. exact E.
  - now injection E as <-.
Qed.

Lemma truth_loop_rng {G : Type} (fuel : nat) (js : list nat)
    (o : option (Locals G)) (l' : Locals G) :
  fold_left (truth_layer fuel) js o = Some l' ->
  exists l, o = Some l /\ rng l' = rng l.
Proof.
  revert o. induction js as [| j js IH]; intros o E.
  - exists l'. split; [exact E | reflexivity].
  - cbn [fold_left] in E. apply IH in E. destruct E as (l & El & Hr).
    destruct o as [l0 |]; [| discriminate].
    exists l0. split; [reflexivity |].
    cbn [truth_layer] in El.
    destruct (dense_steps fuel (last_x l0) _ l0) as [l2 |] eqn:Ed;
      [| discriminate].
    injection El as <-. apply dense_steps_rng in Ed.
    rewrite Hr. exact Ed.
Qed.

Lemma ground_truth_truth_after {G : Type} (fuel : nat) (l : Locals G) :
  ground_truth fuel l = truth_after fuel l n_layers.
Proof. unfold ground_truth, truth_after. reflexivity. Qed.

Lemma ground_truth_rng {G : Type} (fuel : nat) (l l' : Locals G) :
  ground_truth fuel l = Some l' -> rng l' = rng l.
Proof.
  unfold ground_truth. intros E. apply truth_loop_rng in E.
  destruct E as (l0 & El & Hr). injection El as <-. exact Hr.
Qed.

Lemma run_same {G1 G2 : Type}
    (Gaus1 : G1 -> double -> double -> double * G1)
    (Gaus2 : G2 -> double -> double -> double * G2)
    (g1 : G1) (g2 : G2) (fuel : nat) :
  noise_draws Gaus1 g1 = noise_draws Gaus2 g2 ->
  match run Gaus1 fuel g1, run Gaus2 fuel g2 with
  | Some a, Some b =>
      same_filter_data a b /\ true_x a = true_x b /\ true_y a = true_y b
  | None, None => True
  | _, _ => False
  end.
Proof.
  intros Hd. unfold run.
  assert (H0 : same_truth_data (locals_initial g1) (locals_initial g2))
    by (repeat split).
  pose proof (truth_after_same fuel _ _ n_layers H0) as T.
  rewrite <- !ground_truth_truth_after in T.
  destruct (ground_truth fuel (locals_initial g1)) as [a1 |] eqn:E1,
           (ground_truth fuel (locals_initial g2)) as [b1 |] eqn:E2;
    try contradiction; [| exact I].
  apply ground_truth_rng in E1. apply ground_truth_rng in E2.
  cbn [locals_initial rng] in E1, E2.
  split.
  - apply sim_filter_agree. now rewrite E1, E2.
  - destruct T as (Hx & Hy & _).
    rewrite !kalman_filter_kf_after.
    destruct (kf_after_data Gaus1 (simulate_measurements Gaus1 a1) n_layers)
      as (_ & _ & _ & K4 & K5 & _).
    destruct (kf_after_data Gaus2 (simulate_measurements Gaus2 b1) n_layers)
      as (_ & _ & _ & L4 & L5 & _).
    rewrite K4, K5, L4, L5, !simulate_measurements_measure_after.
    destruct (measure_after_spec Gaus1 a1 n_layers)
      as (_ & _ & _ & _ & M3 & M4).
    destruct (measure_after_spec Gaus2 b1 n_layers)
      as (_ & _ & _ & _ & N3 & N4).
    rewrite M3, M4, N3, N4. split; assumption.
Qed.

(** X13: the noise source is consumed in a fixed order, and the output
    depends on it only through the samples it delivers.  The calls made
    are, in this order, ten [Gaus(0, measurement_error)], one per hit, then
    [Gaus(0, 5.0)] and [Gaus(0, 0.1)] for the initial guess, whatever the
    samples are; and two runs whose generators deliver the same twelve
    samples both reach the output or both run out of fuel, and emit the same
    hits and the same fitted track. *)
Theorem noise_consumed_in_fixed_order :
  (forall (G1 G2 : Type)
          (Gaus1 : G1 -> double -> double -> double * G1)
          (Gaus2 : G2 -> double -> double -> double * G2)
          (g1 : G1) (g2 : G2) (fuel : nat),
      noise_draws Gaus1 g1 = noise_draws Gaus2 g2 ->
      option_map hits (main Gaus1 fuel g1)
      = option_map hits (main Gaus2 fuel g2)
      /\ option_map kf_track (main Gaus1 fuel g1)
         = option_map kf_track (main Gaus2 fuel g2))
  /\ (forall (G : Type) (Gaus : G -> double -> double -> double * G)
             (g : G) (fuel : nat),
         (21 <= fuel)%nat ->
         exists l out,
           run (Gaus_logged Gaus) fuel (g, []) = Some l
           /\ snd (rng l)
              = repeat (0, measurement_error) n_layers
                ++ [(0, 5.0); (0, 0.1)]
           /\ main Gaus fuel g = Some out
           /\ hits (emit l) = hits out
           /\ kf_track (emit l) = kf_track out).
Proof.
  assert (Hsame : forall (G1 G2 : Type)
          (Gaus1 : G1 -> double -> double -> double * G1)
          (Gaus2 : G2 -> double -> double -> double * G2)
          (g1 : G1) (g2 : G2) (fuel : nat),
      noise_draws Gaus1 g1 = noise_draws Gaus2 g2 ->
      option_map hits (main Gaus1 fuel g1)
      = option_map hits (main Gaus2 fuel g2)
      /\ option_map kf_track (main Gaus1 fuel g1)
         = option_map kf_track (main Gaus2 fuel g2)).
  { intros G1 G2 Gaus1 Gaus2 g1 g2 fuel Hd.
    pose proof (run_same Gaus1 Gaus2 g1 g2 fuel Hd) as Hr. unfold main.
    destruct (run Gaus1 fuel g1) as [a |], (run Gaus2 fuel g2) as [b |];
      try contradiction; [| split; reflexivity].
    destruct Hr as ((Hm & Hx & Hy & _) & _). cbn [option_map].
    split; f_equal;
      [now apply emit_hits_same | now apply emit_kf_track_same]. }
  split; [exact Hsame |].
  intros G Gaus g fuel Hf.
  destruct (run_shape (Gaus_logged Gaus) fuel (g, []) Hf)
    as (l & El & _ & _ & _ & _ & _ & Hr).
  destruct (run_shape Gaus fuel g Hf) as (l0 & El0 & _).
  exists l, (emit l0). split; [exact El |].
  split.
  - rewrite Hr, rng_after_logged.
    destruct (Gaus_logged_fst Gaus
                (rng_after Gaus g n_layers,
                 [] ++ repeat (0, measurement_error) n_layers) 0 5.0)
      as (_ & _ & F3).
    destruct (Gaus_logged_fst Gaus
                (snd (Gaus_logged Gaus
                        (rng_after Gaus g n_layers,
                         [] ++ repeat (0, measurement_error) n_layers)
                        0 5.0)) 0 0.1)
      as (_ & _ & G3).
    rewrite G3, F3. cbn [snd app]. rewrite <- app_assoc. reflexivity.
  - unfold main. rewrite El0. split; [reflexivity |].
    destruct (Hsame _ _ (Gaus_logged Gaus) Gaus (g, []) g fuel
                (noise_draws_logged Gaus g)) as [Hh Hk].
    unfold main in Hh, Hk. rewrite El, El0 in Hh, Hk.
    cbn [option_map] in Hh, Hk.
    split; [exact (Some_eq_inv _ _ Hh) | exact (Some_eq_inv _ _ Hk)].
Qed.

Lemma noise_consumed_in_fixed_order_witness :
  noise_draws Gaus_mean tt = noise_draws (Gaus_logged Gaus_mean) (tt, [])
  /\ option_map hits (main Gaus_mean 21 tt)
     = option_map hits (main (Gaus_logged Gaus_mean) 21 (tt, []))
  /\ (21 <= 21)%nat
  /\ exists l,
       run (Gaus_logged Gaus_mean) 21 (tt, []) = Some l
       /\ length (snd (rng l)) = 12%nat.
Proof.
  assert (Hd : noise_draws Gaus_mean tt
               = noise_draws (Gaus_logged Gaus_mean) (tt, []))
    by reflexivity.
  split; [exact Hd |].
  split.
  { exact (proj1 (proj1 noise_consumed_in_fixed_order unit (unit * list (double * double))%type
                    Gaus_mean (Gaus_logged Gaus_mean) tt (tt, []) 21%nat Hd)). }
  split; [apply le_n |].
  destruct (proj2 noise_consumed_in_fixed_order unit Gaus_mean tt 21%nat (le_n 21))
    as (l & out & E & Hlog & _).
  exists l. split; [exact E |]. rewrite Hlog. reflexivity.
Defined.


(** C8, on the code: the hits are not fixed by the program and its
    configuration, they follow the state the generator starts from.  Two
    runs whose generators deliver different first samples emit first hits
    that differ by the difference of those samples.  Line 71 builds the
    generator with seed 0, which ROOT documents as a request for a fresh
    seed at every construction, while its comment announces
    reproducibility. *)
Theorem hits_follow_generator_state {TRandom3 : Type}
    (Gaus : TRandom3 -> double -> double -> double * TRandom3)
    (g1 g2 : TRandom3) (fuel : nat) :
  (21 <= fuel)%nat ->
  fst (Gaus g1 0 measurement_error) <> fst (Gaus g2 0 measurement_error) ->
  exists out1 out2,
    main Gaus fuel g1 = Some out1
    /\ main Gaus fuel g2 = Some out2
    /\ snd (nth 0 (hits out1) (0, 0)) - snd (nth 0 (hits out2) (0, 0))
       = fst (Gaus g1 0 measurement_error) - fst (Gaus g2 0 measurement_error)
    /\ hits out1 <> hits out2.
Proof.
  intros Hf Hne.
  destruct (run_shape Gaus fuel g1 Hf) as (l1 & E1 & _ & _ & M1 & _).
  destruct (run_shape Gaus fuel g2 Hf) as (l2 & E2 & _ & _ & M2 & _).
  exists (emit l1), (emit l2). unfold main. rewrite E1, E2.
  split; [reflexivity |]. split; [reflexivity |].
  assert (H0 : (0 < n_layers)%nat) by (unfold n_layers; lia).
  assert (N1 : nth 0 (hits (emit l1)) (0, 0)
               = (layer_pos 0,
                  v0 (true_state_after 1)
                  + fst (Gaus g1 0 measurement_error))).
  { rewrite emit_hits, nth_map_seq by exact H0. f_equal.
    rewrite M1, nth_map_seq by exact H0. reflexivity. }
  assert (N2 : nth 0 (hits (emit l2)) (0, 0)
               = (layer_pos 0,
                  v0 (true_state_after 1)
                  + fst (Gaus g2 0 measurement_error))).
  { rewrite emit_hits, nth_map_seq by exact H0. f_equal.
    rewrite M2, nth_map_seq by exact H0. reflexivity. }
  assert (D : snd (nth 0 (hits (emit l1)) (0, 0))
              - snd (nth 0 (hits (emit l2)) (0, 0))
              = fst (Gaus g1 0 measurement_error)
                - fst (Gaus g2 0 measurement_error)).
  { rewrite N1, N2. cbn [snd]. ring. }
  split; [exact D |].
  intros Eh. rewrite Eh in D. lra.
Qed.

Lemma hits_follow_generator_state_witness :
  (21 <= 21)%nat
  /\ fst (Gaus_counter 0 0 measurement_error)
     <> fst (Gaus_counter 1 0 measurement_error)
  /\ exists out1 out2,
       main Gaus_counter 21 0%nat = Some out1
       /\ main Gaus_counter 21 1%nat = Some out2
       /\ hits out1 <> hits out2.
Proof.
  assert (Hne : fst (Gaus_counter 0 0 measurement_error)
                <> fst (Gaus_counter 1 0 measurement_error)).
  { unfold Gaus_counter, measurement_error. cbn [fst INR]. lra. }
  split; [apply le_n |]. split; [exact Hne |].
  destruct (hits_follow_generator_state Gaus_counter 0%nat 1%nat 21
              (le_n 21) Hne) as (o1 & o2 & E1 & E2 & _ & Hd).
  exists o1, o2. split; [exact E1 |]. split; [exact E2 | exact Hd].
Defined.

(* ================================================================== *)
(** * Further properties of the update step                           *)
(* ================================================================== *)

Lemma gain_weight_bounds (P_pred : SMatrix2x2) :
  0 <= m00 P_pred ->
  let w := k00 (kalman_gain P_pred) in
  0 <= w < 1 /\ 1 - w = 4 * / (m00 P_pred + 4).
Proof.
  intros Ha w. unfold w. rewrite kalman_gain_value. cbn [k00].
  set (a := m00 P_pred) in *. set (t := / (a + 4)).
  assert (Ht : 0 < t) by (apply Rinv_0_lt_compat; lra).
  assert (Hat : (a + 4) * t = 1) by (apply Rinv_r; lra).
  assert (Hw : a * t = 1 - 4 * t) by (rewrite <- Hat; ring).
  rewrite Hw. split; [| ring].
  split; [| lra].
  rewrite <- Hw. apply Rmult_le_pos; lra.
Qed.

(** The update never increases the uncertainty. *)
Lemma update_cov_contracts (P_pred : SMatrix2x2) :
  symmetric P_pred -> positive_semidefinite P_pred ->
  let P' := update_cov P_pred in
  (forall a b : double, quad_form P' a b <= quad_form P_pred a b)
  /\ 0 <= m00 P' < 4
  /\ m00 P' <= m00 P_pred
  /\ m11 P' <= m11 P_pred
  /\ m00 P' * m11 P' - m01 P' * m10 P'
     = 4 / s00 (innovation_S P_pred)
       * (m00 P_pred * m11 P_pred - m01 P_pred * m10 P_pred).
Proof.
  intros Hs Hp P'.
  destruct (psd_minors P_pred Hs Hp) as (Ha & Hc & Hd).
  pose proof (update_cov_value P_pred) as E. cbv zeta in E.
  rewrite innovation_S_value. unfold P'. rewrite E. clear E.
  assert (Hb : m10 P_pred = m01 P_pred) by (symmetry; exact Hs).
  rewrite Hb.
  set (a := m00 P_pred) in *. set (b := m01 P_pred) in *.
  set (c := m11 P_pred) in *. set (t := / (a + 4)).
  assert (Ht : 0 < t) by (apply Rinv_0_lt_compat; lra).
  assert (Hat : (a + 4) * t = 1) by (apply Rinv_r; lra).
  assert (Hu : 1 - a * t = 4 * t) by (rewrite <- Hat; ring).
  assert (Hquad : forall x y : double,
             quad_form (mkMat22 (a - a * t * a) (b - a * t * b)
                                (b - b * t * a) (c - b * t * b)) x y
             = quad_form P_pred x y - t * ((a * x + b * y) * (a * x + b * y))).
  { intros x y. unfold quad_form. cbn [m00 m01 m10 m11].
    fold a b c. rewrite Hb. ring. }
  split.
  { intros x y. rewrite Hquad.
    pose proof (Rle_0_sqr (a * x + b * y)) as Sq. unfold Rsqr in Sq.
    assert (0 <= t * ((a * x + b * y) * (a * x + b * y)))
      by (apply Rmult_le_pos; lra).
    lra. }
  cbn [m00 m01 m10 m11].
  assert (E0 : a - a * t * a = a * (4 * t))
    by (rewrite <- Hu; ring).
  assert (Hat0 : 0 <= a * t) by (apply Rmult_le_pos; lra).
  assert (Hbt : 0 <= t * (b * b)).
  { apply Rmult_le_pos; [lra |].
    pose proof (Rle_0_sqr b) as Sq. unfold Rsqr in Sq. exact Sq. }
  assert (Haat : 0 <= a * t * a) by (apply Rmult_le_pos; lra).
  split; [| split; [| split]].
  - split.
    + rewrite E0. apply Rmult_le_pos; lra.
    + replace (a - a * t * a) with (4 * (a * t)) by (rewrite E0; ring). lra.
  - lra.
  - replace (b * t * b) with (t * (b * b)) by ring. lra.
  - unfold Rdiv. fold t.
    replace ((a - a * t * a) * (c - b * t * b)
             - (b - a * t * b) * (b - b * t * a))
      with ((1 - a * t) * (a * c - b * b)) by ring.
    rewrite Hu. ring.
Qed.

(** X1: on a symmetric, positive semi-definite predicted covariance the
    update never increases the uncertainty: the quadratic form of the
    posterior is below that of the prediction in every direction, the two
    variances do not grow, the variance of y ends below the measurement
    variance 4, and the determinant is scaled by 4 / S. *)
Theorem update_reduces_uncertainty (P_pred : SMatrix2x2) :
  symmetric P_pred -> positive_semidefinite P_pred ->
  let P' := update_cov P_pred in
  (forall a b : double, quad_form P' a b <= quad_form P_pred a b)
  /\ 0 <= m00 P' < 4
  /\ m00 P' <= m00 P_pred
  /\ m11 P' <= m11 P_pred
  /\ m00 P' * m11 P' - m01 P' * m10 P'
     = 4 / s00 (innovation_S P_pred)
       * (m00 P_pred * m11 P_pred - m01 P_pred * m10 P_pred).
Proof. exact (update_cov_contracts P_pred). Qed.

Lemma update_reduces_uncertainty_witness :
  symmetric P_est_initial /\ positive_semidefinite P_est_initial
  /\ 0 <= m00 (update_cov P_est_initial) < 4.
Proof.
  destruct P_est_initial_ok as [Hs Hp].
  split; [exact Hs |]. split; [exact Hp |].
  exact (proj1 (proj2 (update_reduces_uncertainty P_est_initial Hs Hp))).
Defined.

(** The updated y is a weighted mean of prediction and measurement. *)
Lemma update_state_mean (x_pred : SVector2) (P_pred : SMatrix2x2)
    (measured : double) :
  0 <= m00 P_pred ->
  let w := k00 (kalman_gain P_pred) in
  let y' := v0 (update_state x_pred P_pred measured) in
  0 <= w < 1
  /\ y' = (1 - w) * v0 x_pred + w * measured
  /\ Rmin (v0 x_pred) measured <= y' <= Rmax (v0 x_pred) measured
  /\ measured - y' = 4 / s00 (innovation_S P_pred) * (measured - v0 x_pred)
  /\ (measured = v0 x_pred -> update_state x_pred P_pred measured = x_pred).
Proof.
  intros Ha w y'.
  destruct (gain_weight_bounds P_pred Ha) as [Hw H1w]. fold w in Hw, H1w.
  assert (Ey : y' = (1 - w) * v0 x_pred + w * measured).
  { unfold y', w, update_state, add_vec2, mul21_vec, sub_vec1, mul12_vec, H.
    cbn [v0 r0 h00 h01]. rewrite lit_one, lit_zero. ring. }
  split; [exact Hw |]. split; [exact Ey |].
  split; [| split].
  - rewrite Ey. unfold Rmin, Rmax.
    destruct (Rle_dec (v0 x_pred) measured) as [Hle | Hgt]; split; nra.
  - rewrite innovation_S_value. unfold Rdiv. rewrite <- H1w, Ey. ring.
  - intros ->. destruct x_pred as [y phi].
    unfold update_state, add_vec2, mul21_vec, sub_vec1, mul12_vec, H.
    cbn [v0 v1 r0 h00 h01]. rewrite lit_one, lit_zero. f_equal; ring.
Qed.

(** X2: when the predicted variance of y is not negative, the updated y is
    the weighted mean (1 - w) * y_pred + w * measured with the weight
    w = P_pred(0,0) / S in [0, 1): it lies between the prediction and the
    measurement, the residual left after the update is the fraction
    1 - w = 4 / S of the residual before it, and a measurement equal to the
    prediction leaves the predicted state unchanged. *)
Theorem update_state_weighted_mean (x_pred : SVector2) (P_pred : SMatrix2x2)
    (measured : double) :
  0 <= m00 P_pred ->
  let w := k00 (kalman_gain P_pred) in
  let y' := v0 (update_state x_pred P_pred measured) in
  0 <= w < 1
  /\ y' = (1 - w) * v0 x_pred + w * measured
  /\ Rmin (v0 x_pred) measured <= y' <= Rmax (v0 x_pred) measured
  /\ measured - y' = 4 / s00 (innovation_S P_pred) * (measured - v0 x_pred)
  /\ (measured = v0 x_pred -> update_state x_pred P_pred measured = x_pred).
Proof. exact (update_state_mean x_pred P_pred measured). Qed.

Lemma update_state_weighted_mean_witness :
  0 <= m00 P_est_initial
  /\ Rmin 5 7 <= v0 (update_state (mkVec2 5 0) P_est_initial 7) <= Rmax 5 7.
Proof.
  assert (Ha : 0 <= m00 P_est_initial)
    by (unfold P_est_initial; cbn [m00]; lra).
  split; [exact Ha |].
  exact (proj1 (proj2 (proj2
           (update_state_weighted_mean (mkVec2 5 0) P_est_initial 7 Ha)))).
Defined.

(* ================================================================== *)
(** * Further properties of the filter run                            *)
(* ================================================================== *)

Lemma kf_iteration_x_est {G : Type} (l : Locals G) (i : nat) :
  x_est (kf_iteration l i)
  = update_state (predict_state (x_est l) (last_kf_x l) (layer_pos i))
                 (predict_cov (x_est l) (P_est l) (last_kf_x l) (layer_pos i))
                 (nth i (measured_y l) 0).
Proof. reflexivity. Qed.



(* ================================================================== *)
(** * Further properties of the motion model                          *)
(* ================================================================== *)

(** X4: a step of length zero changes nothing (the state is returned as it
    is and the Jacobian is the identity); only the length of the step
    matters, not where it starts; and shifting the incoming y shifts the
    outgoing y by as much and leaves the angle alone. *)
Theorem propagate_step_algebra (s : SVector2) (x x0 x1 c d : double) :
  propagate s x x = s
  /\ jacobian_F s x x = SMatrixIdentity
  /\ propagate s (x0 + c) (x1 + c) = propagate s x0 x1
  /\ jacobian_F s (x0 + c) (x1 + c) = jacobian_F s x0 x1
  /\ propagate (mkVec2 (v0 s + d) (v1 s)) x0 x1
     = mkVec2 (v0 (propagate s x0 x1) + d) (v1 (propagate s x0 x1)).
Proof.
  destruct s as [y phi]. unfold propagate, jacobian_F, SMatrixIdentity.
  cbn [v0 v1]. rewrite lit_one, lit_zero.
  replace (x - x) with 0 by ring.
  replace (x1 + c - (x0 + c)) with (x1 - x0) by ring.
  split; [f_equal; unfold Rdiv; ring |].
  split; [f_equal; unfold Rdiv; ring |].
  split; [reflexivity |]. split; [reflexivity |].
  f_equal. ring.
Qed.

(** The angle of the motion model moves against the direction of the
    step, by at most twice [dx / R] while it is in [-1, 0]; there the y
    does not increase on a forward step. *)
Lemma cos_at_least_half (phi : double) : -1 <= phi <= 0 -> 1 / 2 <= cos phi <= 1.
Proof.
  intros [Hl Hu]. split; [| apply COS_bound].
  rewrite <- cos_neg, <- cos_PI3.
  pose proof PI2_3_2 as Hpi.
  apply cos_decr_1; lra.
Qed.

Lemma propagate_forward_bounds (s : SVector2) (x0 x1 : double) :
  -1 <= v1 s <= 0 -> x0 < x1 ->
  v1 s - 2 * ((x1 - x0) / R) <= v1 (propagate s x0 x1) < v1 s
  /\ (v1 s < 0 -> v0 (propagate s x0 x1) < v0 s).
Proof.
  intros Hphi Hx. destruct (cos_at_least_half (v1 s) Hphi) as [Hc1 Hc2].
  unfold propagate. cbn [v0 v1].
  set (q := (x1 - x0) / R).
  assert (Hq : 0 < q).
  { unfold q. apply Rdiv_lt_0_compat; [lra | exact R_pos]. }
  assert (Hi : 1 <= / cos (v1 s) <= 2).
  { split.
    - rewrite <- Rinv_1. apply Rinv_le_contravar; lra.
    - replace 2 with (/ (1 / 2)) by lra. apply Rinv_le_contravar; lra. }
  assert (Eq : q / cos (v1 s) = q * / cos (v1 s)) by reflexivity.
  rewrite Eq. split.
  - split; nra.
  - intros Hneg.
    assert (Ht : tan (v1 s) < 0).
    { apply tan_lt_0; [| exact Hneg]. pose proof PI2_1. lra. }
    assert (0 < x1 - x0) by lra. nra.
Qed.

(** X5: sub-stepping matters.  While the angle stays inside (-pi/2, pi/2),
    two consecutive steps of non-zero length never arrive at the y of the
    single step over the whole interval: the difference is the length of
    the second step times the change of tan phi made by the first. *)
Theorem two_steps_differ_from_one (y phi x0 x1 x2 : double) :
  Rabs phi < PI / 2 ->
  Rabs (v1 (propagate (mkVec2 y phi) x0 x1)) < PI / 2 ->
  x0 <> x1 -> x1 <> x2 ->
  let s1 := propagate (mkVec2 y phi) x0 x1 in
  v0 (propagate s1 x1 x2) - v0 (propagate (mkVec2 y phi) x0 x2)
  = (x2 - x1) * (tan (v1 s1) - tan phi)
  /\ v0 (propagate s1 x1 x2) <> v0 (propagate (mkVec2 y phi) x0 x2).
Proof.
  intros Hphi Hphi1 H01 H12 s1.
  assert (E : v0 (propagate s1 x1 x2) - v0 (propagate (mkVec2 y phi) x0 x2)
              = (x2 - x1) * (tan (v1 s1) - tan phi)).
  { unfold s1, propagate. cbn [v0 v1]. ring. }
  split; [exact E |].
  intros Heq. rewrite Heq in E.
  assert (Et : tan (v1 s1) = tan phi).
  { assert (Hz : (x2 - x1) * (tan (v1 s1) - tan phi) = 0) by lra.
    apply Rmult_integral in Hz. destruct Hz as [Hz | Hz]; lra. }
  apply tan_inj in Et.
  - unfold s1, propagate in Et. cbn [v1] in Et.
    pose proof (cos_pos_in_domain phi Hphi) as Hc.
    assert (Hz : (x1 - x0) / R / cos phi = 0) by lra.
    unfold Rdiv in Hz.
    apply Rmult_integral in Hz. destruct Hz as [Hz | Hz].
    + apply Rmult_integral in Hz. destruct Hz as [Hz | Hz]; [lra |].
      pose proof (Rinv_0_lt_compat R R_pos). lra.
    + pose proof (Rinv_0_lt_compat (cos phi) Hc). lra.
  - apply Rabs_def2 in Hphi1. fold s1 in Hphi1. lra.
  - apply Rabs_def2 in Hphi. lra.
Qed.

Lemma two_steps_differ_from_one_witness :
  Rabs 0 < PI / 2
  /\ v0 (propagate (propagate (mkVec2 5 0) 0 1) 1 2)
     <> v0 (propagate (mkVec2 5 0) 0 2).
Proof.
  assert (H0 : Rabs 0 < PI / 2).
  { rewrite Rabs_R0. pose proof PI_RGT_0. lra. }
  assert (H1 : Rabs (v1 (propagate (mkVec2 5 0) 0 1)) < PI / 2).
  { unfold propagate. cbn [v0 v1]. rewrite cos_0, R_value.
    pose proof PI2_1. apply Rabs_def1; lra. }
  assert (Ha : 0 <> 1) by lra. assert (Hb : 1 <> 2) by lra.
  split; [exact H0 |].
  exact (proj2 (two_steps_differ_from_one 5 0 0 1 2 H0 H1 Ha Hb)).
Defined.

(* ================================================================== *)
(** * The simulated truth stays inside the domain of the model        *)
(* ================================================================== *)

Lemma layer_spacing (i : nat) :
  (i < n_layers)%nat -> layer_pos i - prev_pos i = 10.
Proof.
  intros Hi. rewrite layer_pos_value, prev_pos_value, S_INR by lia. lra.
Qed.

Lemma true_state_after_angle (i : nat) :
  (i <= n_layers)%nat ->
  -0.2 - 0.06 * INR i <= v1 (true_state_after i) <= -0.2.
Proof.
  induction i as [| i IH]; intros Hi.
  - cbn [true_state_after INR]. unfold true_state_initial. cbn [v1]. lra.
  - destruct (IH ltac:(lia)) as [Hl Hu].
    assert (Hle : INR i <= 10).
    { replace 10 with (INR 10) by (simpl INR; lra). apply le_INR.
      unfold n_layers in Hi. lia. }
    assert (Hd : prev_pos i < layer_pos i)
      by (pose proof (layer_spacing i ltac:(lia)); lra).
    destruct (propagate_forward_bounds (true_state_after i)
                (prev_pos i) (layer_pos i) ltac:(lra) Hd) as [[Hb1 Hb2] _].
    cbn [true_state_after]. rewrite layer_spacing, R_value in Hb1 by lia.
    rewrite S_INR. lra.
Qed.

(** X6: the noise-free trajectory behind the hits never leaves the domain
    of the motion model.  At every layer its angle is in [-0.8, -0.2], so
    inside (-pi/2, pi/2) with cos phi at least 1/2, and its y strictly
    decreases from one layer to the next. *)
Theorem layer_truth_in_domain (i : nat) :
  (i <= n_layers)%nat ->
  -0.8 <= v1 (true_state_after i) <= -0.2
  /\ Rabs (v1 (true_state_after i)) < PI / 2
  /\ 1 / 2 <= cos (v1 (true_state_after i))
  /\ ((i < n_layers)%nat ->
      v0 (true_state_after (S i)) < v0 (true_state_after i)).
Proof.
  intros Hi. destruct (true_state_after_angle i Hi) as [Hl Hu].
  assert (Hle : INR i <= 10).
  { replace 10 with (INR 10) by (simpl INR; lra). apply le_INR.
    unfold n_layers in Hi. lia. }
  split; [lra |]. split.
  { pose proof PI2_1. apply Rabs_def1; lra. }
  split; [apply cos_at_least_half; lra |].
  intros Hlt. cbn [true_state_after].
  assert (Hd : prev_pos i < layer_pos i)
    by (pose proof (layer_spacing i Hlt); lra).
  destruct (propagate_forward_bounds (true_state_after i)
              (prev_pos i) (layer_pos i) ltac:(lra) Hd) as [_ Hy].
  apply Hy. lra.
Qed.

Lemma layer_truth_in_domain_witness :
  (10 <= n_layers)%nat /\ Rabs (v1 (true_state_after 10)) < PI / 2.
Proof.
  assert (H : (10 <= n_layers)%nat) by apply le_n.
  split; [exact H |].
  exact (proj1 (proj2 (layer_truth_in_domain 10 H))).
Defined.

Lemma dense_state_S (k : nat) :
  dense_state (S k) = half_step (dense_state k).
Proof. reflexivity. Qed.

Lemma dense_state_angle (k : nat) :
  (k <= 200)%nat ->
  -0.2 - 0.003 * INR k <= v1 (dense_state k) <= -0.2.
Proof.
  induction k as [| k IH]; intros Hk.
  - change (dense_state 0) with true_state_initial.
    unfold true_state_initial. cbn [v1 INR]. lra.
  - destruct (IH ltac:(lia)) as [Hl Hu].
    assert (Hle : INR k <= 200).
    { replace 200 with (INR 200)
        by (rewrite INR_IZR_INZ; reflexivity).
      apply le_INR. lia. }
    destruct (propagate_forward_bounds (dense_state k) 0 0.5
                ltac:(lra) ltac:(lra)) as [[Hb1 Hb2] _].
    rewrite dense_state_S. unfold half_step.
    rewrite R_value in Hb1. rewrite S_INR. lra.
Qed.

(** X7: the dense ground truth never leaves the domain either.  After any
    number of half-unit steps up to 200, its angle is in [-0.8, -0.2],
    inside (-pi/2, pi/2) with cos phi at least 1/2, and its y strictly
    decreases from one sample to the next. *)
Theorem dense_truth_in_domain (k : nat) :
  (k <= 200)%nat ->
  -0.8 <= v1 (dense_state k) <= -0.2
  /\ Rabs (v1 (dense_state k)) < PI / 2
  /\ 1 / 2 <= cos (v1 (dense_state k))
  /\ ((k < 200)%nat -> v0 (dense_state (S k)) < v0 (dense_state k)).
Proof.
  intros Hk. destruct (dense_state_angle k Hk) as [Hl Hu].
  assert (Hle : INR k <= 200).
  { replace 200 with (INR 200) by (rewrite INR_IZR_INZ; reflexivity).
    apply le_INR. lia. }
  split; [lra |]. split.
  { pose proof PI2_1. apply Rabs_def1; lra. }
  split; [apply cos_at_least_half; lra |].
  intros _. rewrite dense_state_S. unfold half_step.
  destruct (propagate_forward_bounds (dense_state k) 0 0.5
              ltac:(lra) ltac:(lra)) as [_ Hy].
  apply Hy. lra.
Qed.

Lemma dense_truth_in_domain_witness :
  (200 <= 200)%nat /\ Rabs (v1 (dense_state 200)) < PI / 2.
Proof.
  assert (H : (200 <= 200)%nat) by apply le_n.
  split; [exact H |].
  exact (proj1 (proj2 (dense_truth_in_domain 200 H))).
Defined.

(* ================================================================== *)
(** * The inner ground-truth loop on arbitrary bounds                 *)
(* ================================================================== *)

Lemma dense_steps_bounded {G : Type} (m : nat) :
  forall (x0 c : double) (l : Locals G),
    c - x0 <= INR m * 0.5 ->
    exists (n : nat) (l' : Locals G),
      (n <= m)%nat
      /\ (forall fuel, (n < fuel)%nat -> dense_steps fuel x0 c l = Some l')
      /\ true_x l' = true_x l ++ map (fun k => x0 + INR k * 0.5) (seq 1 n)
      /\ length (true_y l') = (length (true_y l) + n)%nat
      /\ (x0 < c -> c <= x0 + INR n * 0.5 < c + 0.5)
      /\ (c <= x0 -> n = 0%nat /\ l' = l).
Proof.
  induction m as [| m IH]; intros x0 c l Hm.
  - exists 0%nat, l. cbn [INR] in Hm.
    split; [lia |]. split.
    { intros fuel Hf. destruct fuel as [| fuel]; [lia |]. cbn [dense_steps].
      destruct (Rlt_dec x0 c) as [Hlt | _]; [lra | reflexivity]. }
    cbn [seq map]. rewrite app_nil_r.
    split; [reflexivity |]. split; [lia |].
    split; [intros Hlt; lra | intros _; split; reflexivity].
  - destruct (Rlt_dec x0 c) as [Hlt | Hge].
    + set (l1 := mkLocals (rng l) (true_x l ++ [x0 + 0.5])
                   (true_y l
                    ++ [v0 (propagate (current_true_state l) x0 (x0 + 0.5))])
                   (propagate (current_true_state l) x0 (x0 + 0.5))
                   (last_x l) (measured_y l) (kf_x l) (kf_y l) (x_est l)
                   (P_est l) (last_kf_x l)).
      destruct (IH (x0 + 0.5) c l1) as (n & l' & Hn & Hrun & Hx & Hy & Hb & Hz).
      { rewrite S_INR in Hm. lra. }
      exists (S n), l'. split; [lia |]. split.
      { intros fuel Hf. destruct fuel as [| fuel]; [lia |].
        cbn [dense_steps].
        destruct (Rlt_dec x0 c) as [_ | N]; [| contradiction].
        apply Hrun. lia. }
      split.
      { rewrite Hx. unfold l1. cbn [true_x]. rewrite <- app_assoc. f_equal.
        cbn [seq map app]. f_equal; [simpl INR; lra |].
        rewrite <- (seq_shift n 1), map_map. apply map_ext.
        intros k. rewrite S_INR. lra. }
      split.
      { rewrite Hy. unfold l1. cbn [true_y]. rewrite length_app.
        cbn [length]. lia. }
      split; [| intros Hc; lra].
      intros _. rewrite S_INR.
      destruct (Rlt_dec (x0 + 0.5) c) as [Hlt' | Hge'].
      * specialize (Hb Hlt'). lra.
      * destruct (Hz ltac:(lra)) as [-> _]. cbn [INR]. lra.
    + exists 0%nat, l. split; [lia |]. split.
      { intros fuel Hf. destruct fuel as [| fuel]; [lia |]. cbn [dense_steps].
        destruct (Rlt_dec x0 c) as [N | _]; [contradiction | reflexivity]. }
      cbn [seq map]. rewrite app_nil_r.
      split; [reflexivity |]. split; [lia |].
      split; [intros Hlt; lra | intros _; split; reflexivity].
Qed.

(** X8: the inner ground-truth loop terminates on every start and bound
    for which its counter is exact in a [double], not only for the spacing
    of the configured layers: a start [x0] that is a multiple of 0.5 and at
    least -2^52, and a bound [c] at most 2^52.  It makes some number [n] of
    steps and then stops, whatever fuel above [n] it is given, having
    appended the abscissae x0 + 1/2, ..., x0 + n/2, all of them multiples of
    0.5 of magnitude at most 2^52, and as many ordinates.  When x0 < c the
    last abscissa reaches [c] and overshoots it by less than one step; when
    c <= x0 the loop body is never entered and the locals come back
    unchanged. *)
Theorem dense_steps_terminates {G : Type} (x0 c : double) (m : Z)
    (l : Locals G) :
  x0 = IZR m * 0.5 ->
  - 4503599627370496 <= x0 ->
  c <= 4503599627370496 ->
  exists (n : nat) (l' : Locals G),
    (forall fuel, (n < fuel)%nat -> dense_steps fuel x0 c l = Some l')
    /\ true_x l' = true_x l ++ map (fun k => x0 + INR k * 0.5) (seq 1 n)
    /\ length (true_y l') = (length (true_y l) + n)%nat
    /\ (x0 < c -> c <= x0 + INR n * 0.5 < c + 0.5)
    /\ (c <= x0 -> n = 0%nat /\ l' = l)
    /\ (forall k : nat, (1 <= k <= n)%nat ->
          x0 + INR k * 0.5 = IZR (m + Z.of_nat k) * 0.5
          /\ Rabs (x0 + INR k * 0.5) <= 4503599627370496).
Proof.
  intros Hx0 Hlo Hhi.
  destruct (INR_unbounded ((c - x0) * 2)) as [b Hb0].
  destruct (dense_steps_bounded b x0 c l ltac:(lra))
    as (n & l' & _ & Hrun & Hx & Hy & Hb & Hz).
  exists n, l'.
  split; [exact Hrun |]. split; [exact Hx |]. split; [exact Hy |].
  split; [exact Hb |]. split; [exact Hz |].
  intros k Hk.
  assert (Ek : x0 + INR k * 0.5 = IZR (m + Z.of_nat k) * 0.5).
  { rewrite plus_IZR, <- INR_IZR_INZ, Hx0. ring. }
  split; [exact Ek |].
  destruct (Rlt_dec x0 c) as [Hlt | Hge].
  - destruct (Hb Hlt) as [_ Hup].
    assert (Hkn : INR k <= INR n) by (apply le_INR; lia).
    assert (Hk0 : 0 <= INR k) by apply pos_INR.
    assert (Hlt53 : IZR (m + Z.of_nat k) < 9007199254740993) by lra.
    apply lt_IZR in Hlt53.
    assert (Hle53 : IZR (m + Z.of_nat k) <= 9007199254740992)
      by (apply IZR_le; lia).
    apply Rabs_le. lra.
  - destruct (Hz ltac:(lra)) as [-> _]. lia.
Qed.

Lemma dense_steps_terminates_witness :
  0 = IZR 0 * 0.5 /\ - 4503599627370496 <= 0 /\ 1 <= 4503599627370496
  /\ 0 < 1 /\ exists n : nat, 1 <= 0 + INR n * 0.5 < 1 + 0.5.
Proof.
  assert (H0 : 0 = IZR 0 * 0.5) by lra.
  assert (Hlo : - 4503599627370496 <= 0) by lra.
  assert (Hhi : 1 <= 4503599627370496) by lra.
  assert (H01 : 0 < 1) by lra.
  split; [exact H0 |]. split; [exact Hlo |]. split; [exact Hhi |].
  split; [exact H01 |].
  destruct (dense_steps_terminates 0 1 0%Z (locals_initial tt) H0 Hlo Hhi)
    as (n & l' & _ & _ & _ & Hb & _).
  exists n. exact (Hb H01).
Defined.

(* ================================================================== *)
(** * What the true track records                                     *)
(* ================================================================== *)

Lemma propagate_half_step (s : SVector2) (x : double) :
  propagate s x (x + 0.5) = half_step s.
Proof.
  unfold half_step, propagate.
  replace (x + 0.5 - x) with (0.5 - 0) by lra. reflexivity.
Qed.

Lemma iter_half_step_shift (k : nat) (s : SVector2) :
  Nat.iter k half_step (half_step s) = Nat.iter (S k) half_step s.
Proof. symmetry. apply Nat.iter_succ_r. Qed.

Lemma dense_steps_states {G : Type} (n : nat) :
  forall (fuel : nat) (x0 : double) (l l' : Locals G),
    (n < fuel)%nat ->
    dense_steps fuel x0 (x0 + INR n * 0.5) l = Some l' ->
    current_true_state l' = Nat.iter n half_step (current_true_state l)
    /\ true_y l'
       = true_y l
         ++ map (fun k => v0 (Nat.iter k half_step (current_true_state l)))
                (seq 1 n).
Proof.
  induction n as [| n IH]; intros fuel x0 l l' Hf E.
  - destruct fuel as [| fuel]; [lia |]. cbn [dense_steps] in E.
    destruct (Rlt_dec x0 (x0 + INR 0 * 0.5)) as [Hlt | _].
    + cbn [INR] in Hlt. lra.
    + apply Some_eq_inv in E. subst l'. cbn [seq map].
      rewrite app_nil_r. split; reflexivity.
  - destruct fuel as [| fuel]; [lia |]. cbn [dense_steps] in E.
    destruct (Rlt_dec x0 (x0 + INR (S n) * 0.5)) as [_ | Hge].
    + replace (x0 + INR (S n) * 0.5) with ((x0 + 0.5) + INR n * 0.5) in E
        by (rewrite S_INR; lra).
      apply IH in E; [| lia]. cbn [current_true_state true_y] in E.
      rewrite propagate_half_step in E. destruct E as [Es Ey].
      split.
      * rewrite Es. apply iter_half_step_shift.
      * rewrite Ey, <- app_assoc. f_equal.
        cbn [seq map app]. f_equal.
        rewrite <- (seq_shift n 1), map_map. apply map_ext.
        intros k. now rewrite iter_half_step_shift.
    + exfalso. apply Hge. pose proof (pos_INR n). rewrite S_INR. lra.
Qed.

Lemma truth_after_states {G : Type} (fuel : nat) (l : Locals G) (i : nat) :
  (21 <= fuel)%nat -> (i <= n_layers)%nat ->
  last_x l = 0 -> true_x l = [] -> true_y l = [] ->
  current_true_state l = true_state_initial ->
  exists l',
    truth_after fuel l i = Some l'
    /\ current_true_state l' = dense_state (20 * i)
    /\ true_y l' = map (fun k => v0 (dense_state k)) (seq 1 (20 * i)).
Proof.
  intros Hf Hi H0 Hx0 Hy0 Hs0. induction i as [| i IH].
  - exists l. cbn [truth_after seq fold_left Nat.mul map].
    split; [reflexivity |]. split; [exact Hs0 | exact Hy0].
  - destruct (IH ltac:(lia)) as (l1 & E & Hs & Hy).
    destruct (truth_after_run fuel l i Hf ltac:(lia) H0 Hx0 Hy0)
      as (l1' & E' & _ & Hl & _).
    rewrite E in E'. apply Some_eq_inv in E'. subst l1'.
    rewrite truth_after_S, E. cbn [truth_layer]. fold (layer_pos i).
    assert (Ec : layer_pos i = last_x l1 + INR 20 * 0.5).
    { rewrite Hl, layer_pos_value, prev_pos_value, S_INR, INR_20 by lia.
      lra. }
    rewrite Ec.
    destruct (dense_steps_run 20 fuel (last_x l1) l1 ltac:(lia))
      as (l2 & E2 & _).
    rewrite E2. eexists. split; [reflexivity |].
    destruct (dense_steps_states 20 fuel (last_x l1) l1 l2 ltac:(lia) E2)
      as [Es2 Ey2].
    cbn [set_last_x current_true_state true_y].
    replace (20 * S i)%nat with (20 * i + 20)%nat by lia.
    split.
    + rewrite Es2, Hs. unfold dense_state. rewrite Nat.add_comm.
      symmetry. apply Nat.iter_add.
    + rewrite Ey2, Hy, Hs, seq_app, map_app. apply f_equal.
      replace (1 + 20 * i)%nat with (20 * i + 1)%nat by lia.
      rewrite seq_add_map, map_map. apply map_ext. intros k.
      unfold dense_state. rewrite (Nat.add_comm (20 * i) k).
      now rewrite Nat.iter_add.
Qed.

Lemma combine_nth_seq (a b : list double) :
  length a = length b ->
  map (fun i => (nth i a 0, nth i b 0)) (seq 0 (length a)) = combine a b.
Proof.
  revert b. induction a as [| x a IH]; intros [| y b] Hl;
    try discriminate Hl; [reflexivity |].
  cbn [length seq map nth combine]. f_equal.
  rewrite <- seq_shift, map_map. cbn [nth]. apply IH.
  now injection Hl.
Qed.

Lemma combine_map_same {A : Type} (f g : A -> double) (l : list A) :
  combine (map f l) (map g l) = map (fun k => (f k, g k)) l.
Proof.
  induction l as [| a l IH]; [reflexivity |].
  cbn [map combine]. now rewrite IH.
Qed.

Section TrueTrack.

Context {TRandom3 : Type}.
Variable Gaus : TRandom3 -> double -> double -> double * TRandom3.

Lemma run_true_track (fuel : nat) (rng0 : TRandom3) :
  (21 <= fuel)%nat ->
  exists l1,
    ground_truth fuel (locals_initial rng0) = Some l1
    /\ run Gaus fuel rng0
       = Some (kalman_filter Gaus (simulate_measurements Gaus l1))
    /\ true_x (kalman_filter Gaus (simulate_measurements Gaus l1))
       = map (fun k => INR k * 0.5) (seq 1 200)
    /\ true_y (kalman_filter Gaus (simulate_measurements Gaus l1))
       = map (fun k => v0 (dense_state k)) (seq 1 200).
Proof.
  intros Hf.
  destruct (truth_after_states fuel (locals_initial rng0) n_layers Hf
              (le_n _) lit_zero eq_refl eq_refl eq_refl)
    as (l1 & E & _ & Hy).
  destruct (ground_truth_run fuel rng0 Hf) as (l1' & E' & _ & Hx & _).
  rewrite ground_truth_truth_after in E'. rewrite E in E'.
  apply Some_eq_inv in E'. subst l1'.
  rewrite <- ground_truth_truth_after in E.
  exists l1. split; [exact E |].
  split; [unfold run; now rewrite E |].
  rewrite kalman_filter_kf_after.
  destruct (kf_after_data Gaus (simulate_measurements Gaus l1) n_layers)
    as (_ & _ & _ & K4 & K5 & _).
  rewrite K4, K5, simulate_measurements_measure_after.
  destruct (measure_after_spec Gaus l1 n_layers)
    as (_ & _ & _ & _ & M3 & M4).
  rewrite M3, M4. split; [exact Hx | exact Hy].
Qed.

End TrueTrack.

(** X9: the true track written to the output is the orbit of the motion
    model under half-unit steps: its 200 records are, in order,
    (k / 2, y after k half-unit steps from the initial state), k = 1..200.
    It passes through every layer position: record 20 i + 19 is at the
    position of layer i. *)
Theorem true_track_samples {TRandom3 : Type}
    (Gaus : TRandom3 -> double -> double -> double * TRandom3)
    (rng0 : TRandom3) (fuel : nat) :
  (21 <= fuel)%nat ->
  exists out,
    main Gaus fuel rng0 = Some out
    /\ true_track out
       = map (fun k => (INR k * 0.5, v0 (dense_state k))) (seq 1 200)
    /\ (forall k : nat, (k < 200)%nat ->
          nth k (true_track out) (0, 0)
          = (INR (S k) * 0.5, v0 (dense_state (S k))))
    /\ (forall i : nat, (i < n_layers)%nat ->
          nth (20 * i + 19) (true_track out) (0, 0)
          = (layer_pos i, v0 (dense_state (20 * S i)))).
Proof.
  intros Hf.
  destruct (run_true_track Gaus fuel rng0 Hf) as (l1 & _ & E & Hx & Hy).
  set (l := kalman_filter Gaus (simulate_measurements Gaus l1)) in *.
  exists (emit l). unfold main. rewrite E. split; [reflexivity |].
  assert (Et : true_track (emit l)
               = map (fun k => (INR k * 0.5, v0 (dense_state k)))
                     (seq 1 200)).
  { unfold emit. cbn [true_track].
    rewrite combine_nth_seq
      by (rewrite Hx, Hy, !length_map; reflexivity).
    rewrite Hx, Hy. apply combine_map_same. }
  split; [exact Et |].
  assert (Hn : forall k : nat, (k < 200)%nat ->
            nth k (true_track (emit l)) (0, 0)
            = (INR (S k) * 0.5, v0 (dense_state (S k)))).
  { intros k Hk. rewrite Et, <- seq_shift, map_map.
    now rewrite nth_map_seq by exact Hk. }
  split; [exact Hn |].
  intros i Hi. unfold n_layers in Hi. rewrite Hn by lia.
  replace (S (20 * i + 19)) with (20 * S i)%nat by lia.
  f_equal. rewrite layer_pos_value by exact Hi.
  rewrite mult_INR, INR_20. lra.
Qed.

Lemma true_track_samples_witness :
  (21 <= 21)%nat
  /\ exists out,
       main Gaus_mean 21 tt = Some out
       /\ nth 19 (true_track out) (0, 0) = (layer_pos 0, v0 (dense_state 20)).
Proof.
  split; [apply le_n |].
  destruct (true_track_samples Gaus_mean tt 21 (le_n 21))
    as (out & E & _ & _ & Hl).
  exists out. split; [exact E |].
  exact (Hl 0%nat ltac:(unfold n_layers; lia)).
Defined.

(** X10: in the run every indexed read is inside its vector.  The hits
    vector has one entry per layer all along the filter loop, each vector of
    ordinates is as long as its vector of abscissae, and so the three
    sequences of records of the output pair the abscissae with the
    ordinates position by position. *)
Theorem output_reads_in_range {TRandom3 : Type}
    (Gaus : TRandom3 -> double -> double -> double * TRandom3)
    (rng0 : TRandom3) (fuel : nat) :
  (21 <= fuel)%nat ->
  exists l1,
    ground_truth fuel (locals_initial rng0) = Some l1
    /\ (forall i : nat,
          length (measured_y
                    (kf_after Gaus (simulate_measurements Gaus l1) i))
          = n_layers)
    /\ let l := kalman_filter Gaus (simulate_measurements Gaus l1) in
       length (true_y l) = length (true_x l)
       /\ length (measured_y l) = n_layers
       /\ length (kf_x l) = n_layers
       /\ length (kf_y l) = n_layers
       /\ main Gaus fuel rng0
          = Some (mkOutput layer_x_positions
                           (combine (true_x l) (true_y l))
                           (combine layer_x_positions (measured_y l))
                           (combine (kf_x l) (kf_y l))).
Proof.
  intros Hf.
  destruct (run_true_track Gaus fuel rng0 Hf) as (l1 & E1 & E & Hx & Hy).
  exists l1. split; [exact E1 |].
  assert (Hm : length (measured_y (simulate_measurements Gaus l1))
               = n_layers).
  { rewrite simulate_measurements_measure_after.
    destruct (measure_after_spec Gaus l1 n_layers) as (_ & _ & _ & M & _).
    rewrite M, length_map, length_seq. reflexivity. }
  assert (Hmi : forall i : nat,
            length (measured_y
                      (kf_after Gaus (simulate_measurements Gaus l1) i))
            = n_layers).
  { intros i.
    destruct (kf_after_data Gaus (simulate_measurements Gaus l1) i)
      as (_ & _ & K & _).
    rewrite K. exact Hm. }
  split; [exact Hmi |].
  cbv zeta. set (l := kalman_filter Gaus (simulate_measurements Gaus l1)) in *.
  assert (Lt : length (true_y l) = length (true_x l))
    by (rewrite Hx, Hy, !length_map; reflexivity).
  assert (Lm : length (measured_y l) = n_layers).
  { unfold l. rewrite kalman_filter_kf_after. apply Hmi. }
  destruct (kf_after_data Gaus (simulate_measurements Gaus l1) n_layers)
    as (Kx & Ky & _).
  rewrite <- kalman_filter_kf_after in Kx, Ky. fold l in Kx, Ky.
  assert (Lx : length (kf_x l) = n_layers)
    by (rewrite Kx, length_map, length_seq; reflexivity).
  assert (Ly : length (kf_y l) = n_layers)
    by (rewrite Ky, length_map, length_seq; reflexivity).
  split; [exact Lt |]. split; [exact Lm |].
  split; [exact Lx |]. split; [exact Ly |].
  unfold main. rewrite E. cbn [option_map]. apply f_equal.
  pose proof layer_positions_indexed as Ed. unfold layer_pos in Ed.
  assert (Ll : length layer_x_positions = n_layers) by reflexivity.
  pose proof (combine_nth_seq layer_x_positions (measured_y l)
                (eq_trans Ll (eq_sym Lm))) as Eh.
  rewrite Ll in Eh.
  unfold emit. rewrite Ed, Eh.
  rewrite (combine_nth_seq (true_x l) (true_y l)) by (symmetry; exact Lt).
  rewrite (combine_nth_seq (kf_x l) (kf_y l)) by (rewrite Lx, Ly; reflexivity).
  reflexivity.
Qed.

Lemma output_reads_in_range_witness :
  (21 <= 21)%nat
  /\ exists l1,
       ground_truth 21 (locals_initial tt) = Some l1
       /\ length (measured_y
                    (kf_after Gaus_mean (simulate_measurements Gaus_mean l1)
                              0))
          = n_layers.
Proof.
  split; [apply le_n |].
  destruct (output_reads_in_range Gaus_mean tt 21 (le_n 21))
    as (l1 & E & Hm & _).
  exists l1. split; [exact E |]. exact (Hm 0%nat).
Defined.

(* ================================================================== *)
(** * The printed text                                                *)
(* ================================================================== *)

Section PrintingFacts.

Import String.
Local Open Scope string_scope.

Variable show : double -> string.

Lemma append_assoc (a b c : string) : (a ++ b) ++ c = a ++ (b ++ c).
Proof.
  induction a as [| ch a IH]; [reflexivity |].
  cbn [append]. now rewrite IH.
Qed.

Lemma append_nil_r (a : string) : a ++ "" = a.
Proof.
  induction a as [| ch a IH]; [reflexivity |].
  cbn [append]. now rewrite IH.
Qed.

Lemma print_loop_from (item : nat -> string) (len s n : nat) (out : string) :
  (s + len = n)%nat ->
  fold_left
    (fun o i => o ++ item i ++ (if Nat.eqb i (n - 1)%nat then "" else ","))
    (seq s len) out
  = out ++ concat "," (map item (seq s len)).
Proof.
  revert s out. induction len as [| len IH]; intros s out Hn.
  - cbn [seq map fold_left concat]. now rewrite append_nil_r.
  - cbn [seq fold_left map]. rewrite IH by lia.
    destruct len as [| len].
    + cbn [seq map concat]. rewrite append_nil_r.
      replace (Nat.eqb s (n - 1)) with true
        by (symmetry; apply Nat.eqb_eq; lia).
      now rewrite append_nil_r.
    + replace (Nat.eqb s (n - 1)) with false
        by (symmetry; apply Nat.eqb_neq; lia).
      cbn [seq map]. cbn [concat]. now rewrite !append_assoc.
Qed.

Lemma print_loop_join (n : nat) (item : nat -> string) (out : string) :
  print_loop n item out = out ++ concat "," (map item (seq 0 n)).
Proof. unfold print_loop. now apply print_loop_from. Qed.

(** X11: the text written to the standard output is the JSON rendering of
    the output record and of nothing else in the locals.  It is one object
    with the members detector_layers, true_track, hits and kf_track in this
    order, then an end of line; each member is an array whose items are
    separated by single commas, with no comma before the first or after the
    last item, and an empty sequence prints as an empty array. *)
Theorem print_json_renders_output {TRandom3 : Type} (l : Locals TRandom3) :
  print_json show l = json_of_output show (emit l)
  /\ (forall (n : nat) (item : nat -> string) (out : string),
         print_loop n item out = out ++ concat "," (map item (seq 0 n)))
  /\ json_array [] = "[]".
Proof.
  split; [| split; [exact print_loop_join | reflexivity]].
  unfold print_json. cbv zeta. rewrite !print_loop_join.
  unfold json_of_output, json_array, emit.
  cbn [detector_layers true_track hits kf_track].
  rewrite !map_map. cbn [fst snd].
  rewrite !append_assoc. reflexivity.
Qed.

End PrintingFacts.

(* ================================================================== *)
(** * The filter on noise-free hits                                   *)
(* ================================================================== *)

Lemma update_state_zero_residual (x_pred : SVector2) (P_pred : SMatrix2x2) :
  update_state x_pred P_pred (v0 x_pred) = x_pred.
Proof.
  destruct x_pred as [y phi].
  unfold update_state, add_vec2, mul21_vec, sub_vec1, mul12_vec, H.
  cbn [v0 v1 r0 h00 h01]. rewrite lit_one, lit_zero. f_equal; ring.
Qed.

Lemma kf_iteration_last_kf_x {G : Type} (l : Locals G) (i : nat) :
  last_kf_x (kf_iteration l i) = layer_pos i.
Proof. reflexivity. Qed.

Section NoiseFree.

Context {TRandom3 : Type}.
Variable Gaus : TRandom3 -> double -> double -> double * TRandom3.
Hypothesis Gaus_silent : forall g sigma, fst (Gaus g 0 sigma) = 0.

Lemma silent_hits (l : Locals TRandom3) :
  measured_y (simulate_measurements Gaus l)
  = map (fun j => v0 (true_state_after (S j))) (seq 0 n_layers).
Proof.
  rewrite simulate_measurements_measure_after.
  destruct (measure_after_spec Gaus l n_layers) as (_ & _ & _ & M & _).
  rewrite M. apply map_ext. intros j. rewrite Gaus_silent. ring.
Qed.

Lemma silent_filter_tracks_truth (l : Locals TRandom3) (i : nat) :
  (i <= n_layers)%nat ->
  measured_y l = map (fun j => v0 (true_state_after (S j))) (seq 0 n_layers) ->
  x_est (kf_after Gaus l i) = true_state_after i
  /\ last_kf_x (kf_after Gaus l i) = prev_pos i.
Proof.
  intros Hi Hm. induction i as [| i IH].
  - rewrite kf_after_0.
    destruct (kf_init_fields Gaus l) as (_ & He & _ & Hl & _).
    rewrite He, Hl, !Gaus_silent. split; [| reflexivity].
    cbn [true_state_after]. unfold true_state_initial. cbn [v0 v1].
    f_equal; ring.
  - destruct (IH ltac:(lia)) as [Hx Hl].
    destruct (kf_after_data Gaus l i) as (_ & _ & Km & _).
    rewrite kf_after_S. split; [| apply kf_iteration_last_kf_x].
    rewrite kf_iteration_x_est, Hx, Hl, Km, Hm.
    rewrite nth_map_seq by lia.
    unfold predict_state. cbn [true_state_after].
    apply update_state_zero_residual.
Qed.

End NoiseFree.

(** X12: on noise-free data the filter reproduces the truth.  With a noise
    source whose samples of mean 0 are all 0, every hit is the y of the
    layer-to-layer true trajectory, every residual of the filter is zero,
    and the fitted track written to the output is equal to the hits. *)
Theorem noise_free_fit_reproduces_hits {TRandom3 : Type}
    (Gaus : TRandom3 -> double -> double -> double * TRandom3)
    (rng0 : TRandom3) (fuel : nat) :
  (forall g sigma, fst (Gaus g 0 sigma) = 0) ->
  (21 <= fuel)%nat ->
  exists out,
    main Gaus fuel rng0 = Some out
    /\ hits out
       = map (fun i => (layer_pos i, v0 (true_state_after (S i))))
             (seq 0 n_layers)
    /\ kf_track out = hits out.
Proof.
  intros Hsilent Hf.
  destruct (run_true_track Gaus fuel rng0 Hf) as (l1 & _ & E & _).
  set (ls := simulate_measurements Gaus l1) in *.
  pose proof (silent_hits Gaus Hsilent l1) as Hm. fold ls in Hm.
  exists (emit (kalman_filter Gaus ls)).
  unfold main. rewrite E. split; [reflexivity |].
  destruct (kf_after_data Gaus ls n_layers) as (Kx & Ky & Km & _).
  rewrite <- kalman_filter_kf_after in Kx, Ky, Km.
  assert (Eh : hits (emit (kalman_filter Gaus ls))
               = map (fun i => (layer_pos i, v0 (true_state_after (S i))))
                     (seq 0 n_layers)).
  { rewrite emit_hits, Km, Hm. apply map_ext_in. intros i Hi.
    apply in_seq in Hi. now rewrite nth_map_seq by lia. }
  split; [exact Eh |]. rewrite Eh.
  unfold emit. cbn [kf_track].
  assert (Ey : kf_y (kalman_filter Gaus ls)
               = map (fun j => v0 (true_state_after (S j)))
                     (seq 0 n_layers)).
  { rewrite Ky. apply map_ext_in. intros j Hj. apply in_seq in Hj.
    destruct (silent_filter_tracks_truth Gaus Hsilent ls (S j)
                ltac:(lia) Hm) as [Hx _].
    now rewrite Hx. }
  rewrite combine_nth_seq
    by (rewrite Kx, Ey, !length_map; reflexivity).
  rewrite Kx, Ey. apply combine_map_same.
Qed.

Lemma noise_free_fit_reproduces_hits_witness :
  (forall (g : unit) (sigma : double), fst (Gaus_mean g 0 sigma) = 0)
  /\ (21 <= 21)%nat
  /\ exists out,
       main Gaus_mean 21 tt = Some out /\ kf_track out = hits out.
Proof.
  assert (Hs : forall (g : unit) (sigma : double),
             fst (Gaus_mean g 0 sigma) = 0)
    by (intros g sigma; reflexivity).
  split; [exact Hs |]. split; [apply le_n |].
  destruct (noise_free_fit_reproduces_hits Gaus_mean tt 21 Hs (le_n 21))
    as (out & E & _ & Hk).
  exists out. split; [exact E | exact Hk].
Defined.
